(** * The pyramiding EMA strategy [TestStrategy] and its end-of-run metrics

    A shallow embedding of the two versions of [TestStrategy] shipped in the
    repository,

    - [src/cryptorebalancingdata.py] (section "import backtrader as bt.py"):
      [MAX] fixed at 5 in [__init__], pyramiding guard [trade_count <= MAX];
    - the script "MAX 2 vs 5 backtrader as bt.py": [MAX] a strategy
      parameter, pyramiding guard [trade_count < MAX];

    together with [stop] (maximum drawdown) and the unrealised-profit sum of
    the driver loop.

    Conventions.
    - Python floats are idealised as rationals ([Q]); comparisons are the
      exact ones.  A division whose Python operands are floats or ints raises
      [ZeroDivisionError] on a zero divisor and is modelled by [py_div]; the
      divisions pandas and numpy perform never raise and are modelled by [/]
      on [Q] (they agree with it whenever the divisor is not zero).
    - [get_color] is the exception: its result is a string that changes
      with the integer part of a float, so its floats are doubles (finite or
      infinite) and every operation rounds, see [Colour].
    - [MAX] is an integer: the driver of the parameterised script always
      passes one, the default [None] of the parameter is never used.
    - backtrader itself (broker, position, indicators, the bar loop of
      [Cerebro]) is not part of the repository.  [next] reads the broker and
      the position through a [Broker] record; the reaction of the broker to
      the orders is a parameter [fill] of [run].  Indicator values come with
      each bar. *)

From Stdlib Require Import List ZArith QArith Qminmax Bool Sorted Lia Lqa.
From Stdlib Require Import Qround.
From Stdlib Require String Ascii DecimalString.
Import ListNotations.

Open Scope Q_scope.

(** ** Python exceptions and the error monad *)

Inductive exn : Set :=
| ZeroDivisionError
| IndexError.

Inductive result (A : Type) : Type :=
| Ok (a : A)
| Raise (e : exn).

Arguments Ok {A} a.
Arguments Raise {A} e.

Definition bind {A B : Type} (r : result A) (k : A -> result B) : result B :=
  match r with
  | Ok a => k a
  | Raise e => Raise e
  end.

Notation "x <- r ;; k" := (bind r (fun x => k))
  (at level 61, r at next level, right associativity).

(** ** Numbers *)

Definition Qlt_bool (a b : Q) : bool := negb (Qle_bool b a).

(** [a / b] on Python numbers: raises on a zero divisor. *)
Definition py_div (a b : Q) : result Q :=
  if Qeq_bool b 0 then Raise ZeroDivisionError else Ok (a / b).

(** ** Python lists *)

(** [l[-1]] *)
Definition py_last (l : list Q) : result Q :=
  match rev l with
  | [] => Raise IndexError
  | x :: _ => Ok x
  end.

(** [l.pop(0)]: the list that is left. *)
Definition py_pop0 (l : list Q) : result (list Q) :=
  match l with
  | [] => Raise IndexError
  | _ :: rest => Ok rest
  end.

(** ** What the strategy reads on each bar *)

(** The lines at index [0]: the current bar and the two EMA(89) values. *)
Record Lines : Set := mkLines {
  datahigh : Q;
  datalow : Q;
  dataclose : Q;
  ema_high : Q;      (* EMA(high, 89) *)
  ema_low : Q        (* EMA(low, 89) *)
}.

(** backtrader's [Position]: [size] and average [price]. *)
Record Position : Set := mkPosition {
  size : Q;
  price : Q
}.

(** [bool(position)] is [size != 0]. *)
Definition position_bool (p : Position) : bool := negb (Qeq_bool (size p) 0).

Record Broker : Set := mkBroker {
  getcash : Q;
  position : Position
}.

(** [broker.getvalue()]: cash plus the position valued at the close. *)
Definition getvalue (bk : Broker) (d : Lines) : Q :=
  getcash bk + size (position bk) * dataclose d.

Inductive State : Set := FLAT | LONG.

Definition state_of (bk : Broker) : State :=
  if position_bool (position bk) then LONG else FLAT.

(** ** The strategy object *)

Record Strategy : Set := mkStrategy {
  MAX : Z;
  trade_count : Z;
  open_positions : list Q;
  equity_curve : list Q;
  max_drawdown : option Q    (* unset until [stop] has run *)
}.

(** [__init__]; the attribute [open_trade_profit] is never read again and is
    left out. *)
Definition init (max : Z) : Strategy :=
  {| MAX := max; trade_count := 0%Z; open_positions := [];
     equity_curve := []; max_drawdown := None |}.

(** What [next] emits: each constructor stands for the [log] line and the
    order call that follows it, with the logged price and the order size. *)
Inductive Event : Set :=
| BUY_CREATE (logged_price order_size : Q)       (* 'BUY CREATE', self.buy(size=size) *)
| BUY_ADDITIONAL (logged_price order_size : Q)   (* 'BUY ADDITIONAL POSITION', self.buy(size=size) *)
| SELL_CREATE (logged_price order_size : Q).     (* 'SELL CREATE', self.sell(size=self.position.size) *)

Definition is_sell (e : Event) : bool :=
  match e with SELL_CREATE _ _ => true | _ => false end.

Definition is_entry (e : Event) : bool :=
  match e with BUY_CREATE _ _ => true | _ => false end.

Definition is_add (e : Event) : bool :=
  match e with BUY_ADDITIONAL _ _ => true | _ => false end.

(** [float(cash / reference / self.MAX)] *)
Definition sizing (cash reference : Q) (max : Z) : result Q :=
  q <- py_div cash reference ;;
  py_div q (inject_Z max).

(** [self.open_positions.append(p); self.trade_count += 1] *)
Definition record_lot (self : Strategy) (p : Q) : Strategy :=
  {| MAX := MAX self;
     trade_count := (trade_count self + 1)%Z;
     open_positions := open_positions self ++ [p];
     equity_curve := equity_curve self;
     max_drawdown := max_drawdown self |}.

(** [self.open_positions.pop(0); self.trade_count += 1], [rest] being the
    list after the pop. *)
Definition drop_lot (self : Strategy) (rest : list Q) : Strategy :=
  {| MAX := MAX self;
     trade_count := (trade_count self + 1)%Z;
     open_positions := rest;
     equity_curve := equity_curve self;
     max_drawdown := max_drawdown self |}.

(** [self.equity_curve.append(portfolio_value)] *)
Definition sample (self : Strategy) (portfolio_value : Q) : Strategy :=
  {| MAX := MAX self;
     trade_count := trade_count self;
     open_positions := open_positions self;
     equity_curve := equity_curve self ++ [portfolio_value];
     max_drawdown := max_drawdown self |}.

Definition entry_condition (d : Lines) : bool := Qlt_bool (ema_high d) (datalow d).

Definition exit_condition (d : Lines) (bk : Broker) : bool :=
  Qlt_bool (datahigh d) (ema_low d) && Qle_bool (datalow d) (price (position bk)).

(** ** [TestStrategy.next]

    [guard] is the comparison of the pyramiding test, the one place where the
    two versions differ. *)
Definition next_with (guard : Z -> Z -> bool)
    (self : Strategy) (d : Lines) (bk : Broker) : result (Strategy * list Event) :=
  let portfolio_value := getvalue bk d in
  let self := sample self portfolio_value in
  if entry_condition d then
    if negb (position_bool (position bk)) then
      sz <- sizing (getcash bk) (datalow d) (MAX self) ;;
      Ok (record_lot self (datalow d), [BUY_CREATE (datalow d) sz])
    else if guard (trade_count self) (MAX self) then
      last <- py_last (open_positions self) ;;
      if Qlt_bool last (datalow d) then
        sz <- sizing (getcash bk) (dataclose d) (MAX self) ;;
        Ok (record_lot self (dataclose d), [BUY_ADDITIONAL (dataclose d) sz])
      else Ok (self, [])
    else Ok (self, [])
  else if exit_condition d bk then
    if position_bool (position bk) then
      rest <- py_pop0 (open_positions self) ;;
      Ok (drop_lot self rest, [SELL_CREATE (datahigh d) (size (position bk))])
    else Ok (self, [])
  else Ok (self, []).

(** The parameterised script: [elif self.trade_count < self.MAX]. *)
Definition next : Strategy -> Lines -> Broker -> result (Strategy * list Event) :=
  next_with Z.ltb.

(** [src/cryptorebalancingdata.py]: [self.MAX = 5] and
    [elif self.trade_count <= self.MAX]. *)
Module Fixed5.
Definition init : Strategy := init 5.
Definition next : Strategy -> Lines -> Broker -> result (Strategy * list Event) :=
  next_with Z.leb.
End Fixed5.

(** ** [TestStrategy.stop]: maximum drawdown with pandas series *)

(** [s.iloc[0]] *)
Definition iloc0 (s : list Q) : result Q :=
  match s with
  | [] => Raise IndexError
  | x :: _ => Ok x
  end.

(** [s / k] *)
Definition series_div_scalar (s : list Q) (k : Q) : list Q :=
  map (fun x => x / k) s.

Fixpoint cummax_from (m : Q) (s : list Q) : list Q :=
  match s with
  | [] => []
  | x :: xs => let m' := Qmax m x in m' :: cummax_from m' xs
  end.

(** [s.cummax()] *)
Definition cummax (s : list Q) : list Q :=
  match s with
  | [] => []
  | x :: xs => x :: cummax_from x xs
  end.

(** Element-wise operation on two series with the same index. *)
Fixpoint series_zip (f : Q -> Q -> Q) (a b : list Q) : list Q :=
  match a, b with
  | x :: a', y :: b' => f x y :: series_zip f a' b'
  | _, _ => []
  end.

Definition series_sub : list Q -> list Q -> list Q := series_zip Qminus.
Definition series_div : list Q -> list Q -> list Q := series_zip Qdiv.

(** [s.min()]; [stop] only reaches it with a series that is not empty. *)
Definition series_min (s : list Q) : Q :=
  match s with
  | [] => 0
  | x :: xs => fold_left Qmin xs x
  end.

Definition drawdown_series (equity : list Q) (first : Q) : list Q :=
  let cumulative_returns := series_div_scalar equity first in
  let peak := cummax cumulative_returns in
  series_div (series_sub cumulative_returns peak) peak.

Definition stop (self : Strategy) : result Strategy :=
  first <- iloc0 (equity_curve self) ;;
  let drawdown := drawdown_series (equity_curve self) first in
  Ok {| MAX := MAX self;
        trade_count := trade_count self;
        open_positions := open_positions self;
        equity_curve := equity_curve self;
        max_drawdown := Some (series_min drawdown * 100) |}.

(** *** The drawdown as the specification words it, index by index *)

Module Finalize.

(** every sample divided by the first sample *)
Definition normalized (curve : list Q) (i : nat) : Q :=
  nth i curve 0 / nth 0 curve 0.

(** the running maximum of the normalized curve up to index [i] *)
Definition peak (curve : list Q) (i : nat) : Q :=
  fold_left (fun m j => Qmax m (normalized curve j)) (seq 1 i) (normalized curve 0).

(** [(normalized - peak) / peak] *)
Definition drawdown (curve : list Q) (i : nat) : Q :=
  (normalized curve i - peak curve i) / peak curve i.

(** [min(drawdown) * 100] *)
Definition max_drawdown_pct (curve : list Q) : Q :=
  fold_left (fun m i => Qmin m (drawdown curve i))
            (seq 1 (length curve - 1)) (drawdown curve 0) * 100.

End Finalize.

(** ** The bar loop and the result record *)

Section Cerebro.

(** [step] is the [next] of the strategy that was added; [fill] is the
    broker's reaction to one order of the bar, done before the next call of
    [next]. *)
Variable step : Strategy -> Lines -> Broker -> result (Strategy * list Event).
Variable fill : Broker -> Lines -> Event -> Broker.

(** One call of [next] per bar after the warm-up of the indicators; the
    result carries the events of the whole run, oldest first. *)
Fixpoint run (self : Strategy) (bk : Broker) (feed : list Lines)
  : result (Strategy * Broker * list Event) :=
  match feed with
  | [] => Ok (self, bk, [])
  | d :: feed' =>
      r <- step self d bk ;;
      let bk' := fold_left (fun b e => fill b d e) (snd r) bk in
      r' <- run (fst r) bk' feed' ;;
      Ok (fst (fst r'), snd (fst r'), snd r ++ snd r')
  end.

(** The same loop against whatever a broker may show: each bar comes with
    the cash and the position that [next] reads on it. *)
Fixpoint drive (self : Strategy) (shown : list (Lines * Broker))
  : result (Strategy * list Event) :=
  match shown with
  | [] => Ok (self, [])
  | (d, bk) :: shown' =>
      r <- step self d bk ;;
      r' <- drive (fst r) shown' ;;
      Ok (fst r', snd r ++ snd r')
  end.

End Cerebro.

(** [sum(... for entry_price in strategy.open_positions)]: a left fold that
    starts at 0. *)
Definition unrealized_profit (current_price : Q) (open_positions : list Q) : Q :=
  fold_left Qplus
    (map (fun entry_price => (current_price - entry_price) / entry_price * 100)
         open_positions)
    0.

(** One row of [results_table], before it is rendered to two decimals. *)
Record ResultRecord : Set := mkResult {
  realized_profit_percent : Q;
  unrealized_profit_percent : Q;
  Trades : Z;
  Max_Drawdown : Q
}.

(** [getattr(strategy, 'max_drawdown', 0)] *)
Definition getattr_max_drawdown (self : Strategy) : Q :=
  match max_drawdown self with
  | Some m => m
  | None => 0
  end.

(** [data_df['close'].iloc[-1]] *)
Definition last_close (feed : list Lines) : result Q :=
  py_last (map dataclose feed).

(** The body of the driver loop for one data feed: run the strategy from
    [initial_value] of cash and no position, call [stop], compute the row.
    The final value of the broker is its cash plus the position at the last
    close. *)
Definition backtest
    (step : Strategy -> Lines -> Broker -> result (Strategy * list Event))
    (fill : Broker -> Lines -> Event -> Broker)
    (self0 : Strategy) (initial_value : Q) (feed : list Lines) : result ResultRecord :=
  r <- run step fill self0 {| getcash := initial_value;
                              position := {| size := 0; price := 0 |} |} feed ;;
  strategy <- stop (fst (fst r)) ;;
  current_price <- last_close feed ;;
  let final_value := getcash (snd (fst r)) + size (position (snd (fst r))) * current_price in
  ratio <- py_div (final_value - initial_value) initial_value ;;
  let unrealized_profit := unrealized_profit current_price (open_positions strategy) in
  Ok {| realized_profit_percent := ratio * 100;
        unrealized_profit_percent := unrealized_profit;
        Trades := trade_count strategy;
        Max_Drawdown := getattr_max_drawdown strategy |}.

(** ** A broker for closed runs *)

(** Modelled from the spec: backtrader's broker is not in the repository; the
    Portfolio Ledger of the specification (4.2) stands in for it.  A buy
    debits [size * reference_price * (1 + commission_rate)] and a sell credits
    [size * current_price * (1 - commission_rate)], the current price being
    the close; a buy of non-positive size is skipped.  The position price is
    the size-weighted average of what was bought and is zero while no
    position is open, as in backtrader. *)
Definition ledger_fill (commission_rate : Q) (bk : Broker) (d : Lines) (e : Event) : Broker :=
  let p := position bk in
  let buy reference sz :=
    if Qle_bool sz 0 then bk
    else
      let total := size p + sz in
      {| getcash := getcash bk - sz * reference * (1 + commission_rate);
         position := if Qeq_bool total 0 then {| size := 0; price := 0 |}
                     else {| size := total;
                             price := (price p * size p + reference * sz) / total |} |} in
  match e with
  | BUY_CREATE reference sz => buy reference sz
  | BUY_ADDITIONAL reference sz => buy reference sz
  | SELL_CREATE _ sz =>
      let left := size p - sz in
      {| getcash := getcash bk + sz * dataclose d * (1 - commission_rate);
         position := if Qeq_bool left 0 then {| size := 0; price := 0 |}
                     else {| size := left; price := price p |} |}
  end.

(** Number of events of a kind in a trace. *)
Definition count (k : Event -> bool) (trace : list Event) : Z :=
  Z.of_nat (length (filter k trace)).

(** ** Statements of the specification that are compared with the code *)

(** The sum, over the recorded lots, of each lot's percentage, every lot
    counted once whatever its size. *)
Definition lot_percent (last_close entry_price : Q) : Q :=
  (last_close - entry_price) / entry_price * 100.

Fixpoint sum_of_lot_percents (last_close : Q) (lots : list Q) : Q :=
  match lots with
  | [] => 0
  | entry_price :: lots' =>
      lot_percent last_close entry_price + sum_of_lot_percents last_close lots'
  end.

(** "Transition to FLAT only when all lots are closed": once the sell of an
    exit bar is filled, the strategy is flat only if no lot record is left. *)
Definition flat_only_without_lots (fill : Broker -> Lines -> Event -> Broker)
    (self : Strategy) (d : Lines) (bk : Broker) : Prop :=
  forall self' evs,
    next self d bk = Ok (self', evs) ->
    existsb is_sell evs = true ->
    state_of (fold_left (fun b e => fill b d e) evs bk) = FLAT ->
    open_positions self' = [].

(** "No state mutation to the ledger": no buy is issued and the lot records
    and the trade count are what they were. *)
Definition buy_skipped (before after : Strategy) (evs : list Event) : Prop :=
  evs = [] /\
  trade_count after = trade_count before /\
  open_positions after = open_positions before.

(** "Trade count never exceeds [max_allowed_adds] plus one exit trade per
    fully closed cycle"; a cycle is closed by each sell, which sells the
    whole position. *)
Definition within_adds_plus_exits (self : Strategy) (trace : list Event) : Prop :=
  (trade_count self <= MAX self + count is_sell trace)%Z.

(** ** The outcomes of one call of [next] that returns

    [s] is the strategy after the equity sample of the bar. *)
Inductive fired (guard : Z -> Z -> bool) (self : Strategy) (d : Lines) (bk : Broker)
  : Strategy -> list Event -> Prop :=
| fired_entry (sz : Q) :
    entry_condition d = true ->
    position_bool (position bk) = false ->
    sizing (getcash bk) (datalow d) (MAX self) = Ok sz ->
    fired guard self d bk
          (record_lot (sample self (getvalue bk d)) (datalow d))
          [BUY_CREATE (datalow d) sz]
| fired_add (last sz : Q) :
    entry_condition d = true ->
    position_bool (position bk) = true ->
    guard (trade_count self) (MAX self) = true ->
    py_last (open_positions self) = Ok last ->
    Qlt_bool last (datalow d) = true ->
    sizing (getcash bk) (dataclose d) (MAX self) = Ok sz ->
    fired guard self d bk
          (record_lot (sample self (getvalue bk d)) (dataclose d))
          [BUY_ADDITIONAL (dataclose d) sz]
| fired_exit (oldest : Q) (rest : list Q) :
    entry_condition d = false ->
    exit_condition d bk = true ->
    position_bool (position bk) = true ->
    open_positions self = oldest :: rest ->
    fired guard self d bk
          (drop_lot (sample self (getvalue bk d)) rest)
          [SELL_CREATE (datahigh d) (size (position bk))]
| fired_none :
    fired guard self d bk (sample self (getvalue bk d)) [].

(** ** [resample_data]

    A price frame is the list of its rows in index order.  The index is the
    time in hours, counted from the midnight that pandas takes as the origin
    of the bins.  The columns hold no missing value. *)
Module Resample.

Record Row : Set := mkRow {
  index : Z;
  open : Q;
  high : Q;
  low : Q;
  close : Q;
  volume : Q
}.

(** [.apply(ohlc_dict)] on the rows of one bin, [r] the first of them:
    'first', 'max', 'min', 'last', 'sum'. *)
Definition ohlc (label : Z) (r : Row) (others : list Row) : Row :=
  {| index := label;
     open := open r;
     high := fold_left Qmax (map high others) (high r);
     low := fold_left Qmin (map low others) (low r);
     close := close (last others r);
     volume := fold_left Qplus (map volume others) (volume r) |}.

Section Bins.

(** The label of the bin a time falls in. *)
Variable bin : Z -> Z.

(** [.resample(timeframe)]: the rows of each bin that holds any, a bin being
    a run of rows with the same label.  A bin without rows would aggregate
    to missing values and is dropped by [.dropna()]: it never appears. *)
Fixpoint bins (rows : list Row) : list (Z * (Row * list Row)) :=
  match rows with
  | [] => []
  | r :: rows' =>
      match bins rows' with
      | (label, (r', others)) :: rest =>
          if (bin (index r) =? label)%Z
          then (label, (r, r' :: others)) :: rest
          else (bin (index r), (r, [])) :: (label, (r', others)) :: rest
      | [] => [(bin (index r), (r, []))]
      end
  end.

Definition resample_with (rows : list Row) : list Row :=
  map (fun b => ohlc (fst b) (fst (snd b)) (snd (snd b))) (bins rows).

End Bins.

(** The left edge of the bin of [timeframe] hours that holds [t]. *)
Definition floor_to (timeframe t : Z) : Z := (t / timeframe * timeframe)%Z.

Definition resample_data (data_df : list Row) (timeframe : Z) : list Row :=
  resample_with (floor_to timeframe) data_df.

(** A row whose low and high bracket its open and its close. *)
Definition well_formed (r : Row) : Prop :=
  low r <= open r /\ low r <= close r /\ open r <= high r /\ close r <= high r.

Definition total_volume (rows : list Row) : Q :=
  fold_right (fun r acc => volume r + acc) 0 rows.

End Resample.

(** The frame the driver feeds to the strategy for a timeframe: resampled
    for ['4h'] and ['8h'], the hourly frame itself for any other interval
    (['1d'] included). *)
Module Timeframes.

Import Stdlib.Strings.String.
Local Open Scope string_scope.

Definition timeframe_frame (tf_interval : string) (data_df : list Resample.Row)
  : list Resample.Row :=
  if (eqb tf_interval "4h" || eqb tf_interval "8h")%bool
  then Resample.resample_data data_df (if eqb tf_interval "4h" then 4%Z else 8%Z)
  else data_df.

End Timeframes.

(** ** [get_color], the colour of a table cell

    The colour is a string that changes with the integer part of a float, so
    here a float is a double and not an exact rational: a finite value or an
    infinity (the missing value of pandas, NaN, is [None]), and the result
    of each operation is rounded by [rnd]. *)
Module Colour.

Import Stdlib.Strings.String Stdlib.Strings.Ascii.

Inductive double : Set :=
| Finite (q : Q)
| Infinite (negative : bool).

(** The order of the doubles. *)
Definition double_le (a b : double) : Prop :=
  match a, b with
  | Infinite true, _ => True
  | _, Infinite false => True
  | Finite x, Finite y => x <= y
  | _, _ => False
  end.

(** A rational with at most 53 bits over a power of two up to [2^53]: a
    double. *)
Definition dyadic (m : Z) (k : nat) : Q := inject_Z m / inject_Z (2 ^ Z.of_nat k).

(** What is used of rounding to the nearest double: it never inverts an
    order, with overflow to an infinity, and it leaves such a double as it
    is. *)
Record round_to_nearest (rnd : Q -> double) : Prop := {
  rnd_monotone : forall x y : Q, x <= y -> double_le (rnd x) (rnd y);
  rnd_exact : forall (m : Z) (k : nat),
    (Z.abs m <= 2 ^ 53)%Z -> (k <= 53)%nat ->
    exists y, rnd (dyadic m k) = Finite y /\ y == dyadic m k
}.

(** Arithmetic without rounding: every rational taken as a double. *)
Definition unrounded (x : Q) : double := Finite x.

(** [int(x)] of a finite float: the integer part, towards zero. *)
Definition py_int (x : Q) : Z := Z.quot (Qnum x) (Z.pos (Qden x)).

(** What a call does: it returns a colour, or [int] raises on an infinity. *)
Inductive outcome : Set :=
| Returns (colour : string)
| OverflowError.

Section Doubles.

Variable rnd : Q -> double.

(** [value > 0] and [value < 0] *)
Definition positive (value : double) : bool :=
  match value with
  | Finite v => Qlt_bool 0 v
  | Infinite negative => negb negative
  end.

Definition negative (value : double) : bool :=
  match value with
  | Finite v => Qlt_bool v 0
  | Infinite negative => negative
  end.

(** [-value] *)
Definition fneg (value : double) : double :=
  match value with
  | Finite v => Finite (- v)
  | Infinite negative => Infinite (negb negative)
  end.

(** [value / d] and [k * value], for a positive integer [d] or [k] *)
Definition fdiv (value : double) (d : Q) : double :=
  match value with
  | Finite v => rnd (v / d)
  | Infinite negative => Infinite negative
  end.

Definition fmul (k : Q) (value : double) : double :=
  match value with
  | Finite v => rnd (k * v)
  | Infinite negative => Infinite negative
  end.

(** [int(x)]; [None] when it raises [OverflowError]. *)
Definition int (x : double) : option Z :=
  match x with
  | Finite x => Some (py_int x)
  | Infinite _ => None
  end.

(** [255 * (value / 100)] *)
Definition scaled (value : double) : double := fmul 255 (fdiv value 100).

Local Open Scope string_scope.

(** An integer in an f-string. *)
Definition str (z : Z) : string := DecimalString.NilZero.string_of_int (Z.to_int z).

(** The character [\033]. *)
Definition esc : string := String (ascii_of_nat 27) EmptyString.

Definition white : string := esc ++ "[38;2;255;255;255m".

(** [value] is [None] for a missing value ([pd.isnull]). *)
Definition get_color (value : option double) : outcome :=
  match value with
  | None => Returns white
  | Some value =>
      if positive value then
        match int (scaled value) with
        | None => OverflowError
        | Some i =>
            let intensity := (255 - Z.min 255 i)%Z in
            Returns (esc ++ "[38;2;" ++ str intensity ++ ";255;" ++ str intensity ++ "m")
        end
      else if negative value then
        match int (scaled (fneg value)) with
        | None => OverflowError
        | Some i =>
            let intensity := (255 - Z.min 255 i)%Z in
            Returns (esc ++ "[38;2;255;" ++ str intensity ++ ";" ++ str intensity ++ "m")
        end
      else Returns white
  end.

(** The escape sequence that sets the foreground to a 24-bit colour. *)
Definition foreground (r g b : Z) : string :=
  esc ++ "[38;2;" ++ str r ++ ";" ++ str g ++ ";" ++ str b ++ "m".

End Doubles.

End Colour.

(** ** Weekly performance in [calculate_performance] *)

(** [s.pct_change()]: each value over the one before, minus one; the first
    has none before it and is missing. *)
Definition pct_change (s : list Q) : list (option Q) :=
  match s with
  | [] => []
  | _ :: later =>
      None :: map (fun pair => Some (snd pair / fst pair - 1)) (combine s later)
  end.

(** [s.dropna()] *)
Fixpoint dropna (s : list (option Q)) : list Q :=
  match s with
  | [] => []
  | Some x :: s' => x :: dropna s'
  | None :: s' => dropna s'
  end.

(** [data["Close"].pct_change() * 100], then [.dropna()] *)
Definition weekly_performance (close : list Q) : list Q :=
  dropna (map (option_map (fun change => change * 100)) (pct_change close)).

(** A close carried forward over the weekly changes, in percent. *)
Definition compound (close : Q) (performance : list Q) : Q :=
  fold_left (fun c p => c * (1 + p / 100)) performance close.

(** ** [get_top_crypto_assets]

    The file system, the clock and the download are inputs: what is found at
    [CACHE_FILE], the time of the call, the frame [yf.download] gives for a
    ticker, and the error of the final [pickle.dump] if it fails.  The result
    is the dictionary returned, in insertion order, with the lines printed. *)
Module Assets.

Import Stdlib.Strings.String.
Local Open Scope string_scope.

Definition crypto_tickers : list string :=
  [ "BTC-USD"; "ETH-USD"; "BNB-USD"; "XRP-USD"; "ADA-USD";
    "SOL-USD"; "DOT-USD"; "DOGE-USD"; "MATIC-USD"; "LTC-USD";
    "TRX-USD"; "AVAX-USD"; "LINK-USD"; "UNI-USD"; "ATOM-USD";
    "ALGO-USD"; "FTT-USD"; "VET-USD"; "FIL-USD"; "AAVE-USD" ].

(** [timedelta(days=1)], in microseconds, the resolution of [datetime]. *)
Definition one_day : Z := 86400000000.

Section Frames.

(** A downloaded frame and its number of rows; [data.empty] is zero rows. *)
Variable Frame : Type.
Variable rows : Frame -> nat.

Inductive Cache : Type :=
| NoFile                                              (* os.path.exists is false *)
| Unreadable (error : string)                         (* the try block raised *)
| Cached (timestamp : Z) (data : list (string * Frame)).

(** [crypto_data[ticker] = data] *)
Fixpoint dict_set (ticker : string) (data : Frame) (crypto_data : list (string * Frame))
  : list (string * Frame) :=
  match crypto_data with
  | [] => [(ticker, data)]
  | (k, v) :: rest =>
      if eqb ticker k then (ticker, data) :: rest else (k, v) :: dict_set ticker data rest
  end.

(** The loop over the tickers. *)
Fixpoint fetch (download : string -> Frame) (tickers : list string)
    (crypto_data : list (string * Frame)) (printed : list string)
  : list (string * Frame) * list string :=
  match tickers with
  | [] => (crypto_data, printed)
  | ticker :: tickers' =>
      let data := download ticker in
      if negb (rows data =? 0)%nat then
        if (200 <=? rows data)%nat then
          fetch download tickers' (dict_set ticker data crypto_data) printed
        else
          fetch download tickers' crypto_data
                (List.app printed
                   ["Skipping " ++ ticker ++ " due to insufficient weekly data."])
      else
        fetch download tickers' crypto_data
              (List.app printed ["No data available for " ++ ticker ++ "."])
  end.

Definition fetch_fresh (download : string -> Frame) (save_error : option string)
    (printed : list string) : list (string * Frame) * list string :=
  let fetched :=
    fetch download crypto_tickers []
          (List.app printed ["Fetching fresh data from yfinance..."]) in
  (fst fetched,
   match save_error with
   | Some e => List.app (snd fetched) ["Failed to save cache: " ++ e]
   | None => snd fetched
   end).

Definition get_top_crypto_assets (cache : Cache) (now : Z)
    (download : string -> Frame) (save_error : option string)
  : list (string * Frame) * list string :=
  match cache with
  | NoFile => fetch_fresh download save_error []
  | Unreadable e => fetch_fresh download save_error ["Failed to load cache: " ++ e]
  | Cached timestamp data =>
      if (now - timestamp <? one_day)%Z
      then (data, ["Using cached data..."])
      else fetch_fresh download save_error []
  end.

(** The cache is used: it was read and is less than a day old. *)
Definition fresh (cache : Cache) (now : Z) : bool :=
  match cache with
  | Cached timestamp _ => (now - timestamp <? one_day)%Z
  | _ => false
  end.

(** The line printed about a ticker that is not kept. *)
Definition report (download : string -> Frame) (ticker : string) : list string :=
  if (rows (download ticker) =? 0)%nat
  then ["No data available for " ++ ticker ++ "."]
  else if (200 <=? rows (download ticker))%nat then []
  else ["Skipping " ++ ticker ++ " due to insufficient weekly data."].

End Frames.

End Assets.

(** ** Sample feeds

    Bars as [high low close EMA(high,89) EMA(low,89)]. *)

(** low above EMA(high): an entry bar *)
Definition bar_entry : Lines := mkLines 12 10 11 9 8.

(** a higher low, above the lot recorded on [bar_entry] *)
Definition bar_rise : Lines := mkLines 15 12 14 9 8.

(** high below EMA(low) and low under the position price: an exit bar *)
Definition bar_exit : Lines := mkLines 5 4 5 9 8.

(** Six bars, each low above the previous close. *)
Definition six_rising : list Lines :=
  [ mkLines 12 10 11 9 8; mkLines 15 13 14 9 8; mkLines 18 16 17 9 8;
    mkLines 21 19 20 9 8; mkLines 24 22 23 9 8; mkLines 27 25 26 9 8 ].

(** No position, [cash] in the account. *)
Definition broker0 (cash : Q) : Broker := mkBroker cash (mkPosition 0 0).

(** The commission of the parameterised script. *)
Definition commission : Q := 1 # 1000.

(** * Properties *)

(** ** Numbers and lists *)

Lemma Qlt_bool_iff (a b : Q) : Qlt_bool a b = true <-> a < b.
Proof.
  unfold Qlt_bool. rewrite negb_true_iff.
  destruct (Qle_bool b a) eqn:E.
  - apply Qle_bool_iff in E. split; [discriminate | intros H; exfalso; lra].
  - split; [intros _ | reflexivity].
    apply Qnot_le_lt. intros H. apply Qle_bool_iff in H. congruence.
Qed.

Lemma Qeq_bool_false_iff (a b : Q) : Qeq_bool a b = false <-> ~ a == b.
Proof.
  split.
  - intros E H. apply Qeq_bool_iff in H. congruence.
  - intros H. destruct (Qeq_bool a b) eqn:E; [|reflexivity].
    apply Qeq_bool_iff in E. contradiction.
Qed.

Lemma py_div_ok (a b : Q) : ~ b == 0 -> py_div a b = Ok (a / b).
Proof.
  intros H. unfold py_div. apply Qeq_bool_false_iff in H. rewrite H. reflexivity.
Qed.

Lemma py_div_inv (a b q : Q) : py_div a b = Ok q -> ~ b == 0 /\ q = a / b.
Proof.
  unfold py_div. destruct (Qeq_bool b 0) eqn:E; [discriminate|].
  intros [= <-]. split; [apply Qeq_bool_false_iff; exact E | reflexivity].
Qed.

Lemma inject_Z_nonzero (z : Z) : z <> 0%Z -> ~ inject_Z z == 0.
Proof.
  intros H E. apply H. unfold Qeq in E. simpl in E. lia.
Qed.

Lemma sizing_ok (cash reference : Q) (max : Z) :
  ~ reference == 0 -> max <> 0%Z ->
  sizing cash reference max = Ok (cash / reference / inject_Z max).
Proof.
  intros Hr Hm. unfold sizing. rewrite (py_div_ok _ _ Hr). simpl.
  apply py_div_ok, inject_Z_nonzero, Hm.
Qed.

Lemma sizing_inv (cash reference sz : Q) (max : Z) :
  sizing cash reference max = Ok sz ->
  ~ reference == 0 /\ max <> 0%Z /\ sz = cash / reference / inject_Z max.
Proof.
  unfold sizing. destruct (py_div cash reference) as [q|e] eqn:E1; simpl; [|discriminate].
  intros E2. apply py_div_inv in E1 as [Hr ->]. apply py_div_inv in E2 as [Hm ->].
  repeat split; [exact Hr | intros ->; apply Hm; reflexivity].
Qed.

Lemma py_last_app (l : list Q) (x : Q) : py_last (l ++ [x]) = Ok x.
Proof. unfold py_last. rewrite rev_app_distr. reflexivity. Qed.

Lemma py_last_nonempty (l : list Q) : l <> [] -> exists x, py_last l = Ok x.
Proof.
  intros H. destruct (exists_last H) as (l' & x & ->).
  exists x. apply py_last_app.
Qed.

(** ** One call of [next] *)

Lemma position_bool_state (bk : Broker) :
  (position_bool (position bk) = true <-> state_of bk = LONG) /\
  (position_bool (position bk) = false <-> state_of bk = FLAT).
Proof.
  unfold state_of. destruct (position_bool (position bk)); split; split; intros H;
    try reflexivity; discriminate.
Qed.

Lemma next_with_inv (guard : Z -> Z -> bool) (self : Strategy) (d : Lines) (bk : Broker)
    (self' : Strategy) (evs : list Event) :
  next_with guard self d bk = Ok (self', evs) -> fired guard self d bk self' evs.
Proof.
  unfold next_with.
  destruct (entry_condition d) eqn:Hentry.
  - destruct (position_bool (position bk)) eqn:Hpos; simpl.
    + destruct (guard _ _) eqn:Hguard.
      * destruct (py_last _) as [last|] eqn:Hlast; simpl; [|discriminate].
        destruct (Qlt_bool last (datalow d)) eqn:Hrise.
        -- destruct (sizing _ _ _) as [sz|] eqn:Hsz; simpl; [|discriminate].
           intros [= <- <-]. eapply fired_add; eassumption.
        -- intros [= <- <-]. apply fired_none.
      * intros [= <- <-]. apply fired_none.
    + destruct (sizing _ _ _) as [sz|] eqn:Hsz; simpl; [|discriminate].
      intros [= <- <-]. apply fired_entry; assumption.
  - destruct (exit_condition d bk) eqn:Hexit.
    + destruct (position_bool (position bk)) eqn:Hpos.
      * destruct (open_positions (sample self (getvalue bk d))) as [|oldest rest] eqn:Hops;
          simpl; [discriminate|].
        intros [= <- <-]. eapply fired_exit; eassumption.
      * intros [= <- <-]. apply fired_none.
    + intros [= <- <-]. apply fired_none.
Qed.

(** An entry from FLAT is taken whenever the sizing does not raise. *)
Lemma next_with_entry (guard : Z -> Z -> bool) (self : Strategy) (d : Lines) (bk : Broker) (sz : Q) :
  entry_condition d = true ->
  state_of bk = FLAT ->
  sizing (getcash bk) (datalow d) (MAX self) = Ok sz ->
  next_with guard self d bk =
    Ok (record_lot (sample self (getvalue bk d)) (datalow d), [BUY_CREATE (datalow d) sz]).
Proof.
  intros Hentry Hflat Hsz. apply position_bool_state in Hflat.
  unfold next_with. rewrite Hentry, Hflat. simpl. rewrite Hsz. reflexivity.
Qed.

Lemma next_with_add (guard : Z -> Z -> bool) (self : Strategy) (d : Lines) (bk : Broker)
    (last sz : Q) :
  entry_condition d = true ->
  state_of bk = LONG ->
  guard (trade_count self) (MAX self) = true ->
  py_last (open_positions self) = Ok last ->
  last < datalow d ->
  sizing (getcash bk) (dataclose d) (MAX self) = Ok sz ->
  next_with guard self d bk =
    Ok (record_lot (sample self (getvalue bk d)) (dataclose d),
        [BUY_ADDITIONAL (dataclose d) sz]).
Proof.
  intros Hentry Hlong Hguard Hlast Hrise Hsz. apply position_bool_state in Hlong.
  apply Qlt_bool_iff in Hrise.
  unfold next_with. rewrite Hentry, Hlong. simpl. rewrite Hguard, Hlast. simpl.
  rewrite Hrise, Hsz. reflexivity.
Qed.

Lemma next_with_exit (guard : Z -> Z -> bool) (self : Strategy) (d : Lines) (bk : Broker)
    (oldest : Q) (rest : list Q) :
  entry_condition d = false ->
  exit_condition d bk = true ->
  state_of bk = LONG ->
  open_positions self = oldest :: rest ->
  next_with guard self d bk =
    Ok (drop_lot (sample self (getvalue bk d)) rest,
        [SELL_CREATE (datahigh d) (size (position bk))]).
Proof.
  intros Hentry Hexit Hlong Hops. apply position_bool_state in Hlong.
  unfold next_with. rewrite Hentry, Hexit, Hlong. simpl. rewrite Hops. reflexivity.
Qed.

(** Selling the whole position leaves the ledger flat, at price zero. *)
Lemma ledger_fill_sell_all (c : Q) (bk : Broker) (d : Lines) (p : Q) :
  position (ledger_fill c bk d (SELL_CREATE p (size (position bk)))) = mkPosition 0 0.
Proof.
  unfold ledger_fill.
  replace (Qeq_bool (size (position bk) - size (position bk)) 0) with true; [reflexivity|].
  symmetry. apply Qeq_bool_iff. ring.
Qed.

(** In the ledger a flat position has price zero, whatever was filled. *)
Lemma ledger_fill_flat_price (c : Q) (bk : Broker) (d : Lines) (e : Event) :
  (state_of bk = FLAT -> price (position bk) == 0) ->
  state_of (ledger_fill c bk d e) = FLAT ->
  price (position (ledger_fill c bk d e)) == 0.
Proof.
  intros Hinv.
  assert (Hbuy : forall reference sz bk',
    bk' = (if Qle_bool sz 0 then bk
           else {| getcash := getcash bk - sz * reference * (1 + c);
                   position :=
                     if Qeq_bool (size (position bk) + sz) 0
                     then {| size := 0; price := 0 |}
                     else {| size := size (position bk) + sz;
                             price := (price (position bk) * size (position bk)
                                       + reference * sz) / (size (position bk) + sz) |} |}) ->
    state_of bk' = FLAT -> price (position bk') == 0).
  { intros reference sz bk' ->. destruct (Qle_bool sz 0); [exact Hinv|].
    destruct (Qeq_bool (size (position bk) + sz) 0) eqn:E; simpl; [reflexivity|].
    unfold state_of, position_bool. simpl. rewrite E. discriminate. }
  destruct e as [reference sz|reference sz|p sz].
  - apply (Hbuy reference sz). reflexivity.
  - apply (Hbuy reference sz). reflexivity.
  - unfold ledger_fill.
    destruct (Qeq_bool (size (position bk) - sz) 0) eqn:E; simpl; [reflexivity|].
    unfold state_of, position_bool. simpl. rewrite E. discriminate.
Qed.

(** ** C8: sizing of the buys *)

(** C8. Every buy that [next] issues has size [cash / reference / MAX]: the
    reference price is the low of the bar for the entry from FLAT and the
    close of the bar for a pyramiding add (both versions of [next]). *)
Theorem buy_size_is_cash_over_reference_over_max
    (guard : Z -> Z -> bool) (self : Strategy) (d : Lines) (bk : Broker)
    (self' : Strategy) (evs : list Event) (e : Event) :
  next_with guard self d bk = Ok (self', evs) ->
  In e evs ->
  match e with
  | BUY_CREATE reference sz =>
      state_of bk = FLAT /\ reference = datalow d /\
      sz = getcash bk / datalow d / inject_Z (MAX self)
  | BUY_ADDITIONAL reference sz =>
      state_of bk = LONG /\ reference = dataclose d /\
      sz = getcash bk / dataclose d / inject_Z (MAX self)
  | SELL_CREATE _ _ => True
  end.
Proof.
  intros Hnext Hin. apply next_with_inv in Hnext.
  destruct Hnext as [sz Hentry Hpos Hsz | last sz Hentry Hpos Hguard Hlast Hrise Hsz
                    | oldest rest Hentry Hexit Hpos Hops | ];
    simpl in Hin; try contradiction; destruct Hin as [<- | []].
  - apply position_bool_state in Hpos. apply sizing_inv in Hsz as (_ & _ & ->). auto.
  - apply position_bool_state in Hpos. apply sizing_inv in Hsz as (_ & _ & ->). auto.
  - exact I.
Qed.

Lemma buy_size_is_cash_over_reference_over_max_witness :
  (exists self', next (init 5) bar_entry (broker0 100000)
                 = Ok (self', [BUY_CREATE 10 (100000 / 10 / 5)])) /\
  (state_of (broker0 100000) = FLAT /\ 10 = datalow bar_entry /\
   100000 / 10 / 5 = getcash (broker0 100000) / datalow bar_entry / inject_Z 5).
Proof.
  split.
  - eexists. reflexivity.
  - apply (buy_size_is_cash_over_reference_over_max Z.ltb (init 5) bar_entry (broker0 100000)
             (record_lot (sample (init 5) 100000) 10)
             [BUY_CREATE 10 (100000 / 10 / 5)]
             (BUY_CREATE 10 (100000 / 10 / 5))).
    + reflexivity.
    + simpl. left. reflexivity.
Defined.

(** ** C1: when a pyramiding add is made *)

(** With a position open, a recorded lot and a sizing that cannot raise,
    [next_with guard] adds a lot exactly when the entry condition holds, the
    guard on [trade_count] passes and the low is above the last recorded
    entry price. *)
Lemma add_iff_with (guard : Z -> Z -> bool) (self : Strategy) (d : Lines) (bk : Broker) (last : Q) :
  state_of bk = LONG ->
  py_last (open_positions self) = Ok last ->
  ~ dataclose d == 0 ->
  MAX self <> 0%Z ->
  exists self' evs,
    next_with guard self d bk = Ok (self', evs) /\
    (existsb is_add evs = true <->
     ema_high d < datalow d /\ guard (trade_count self) (MAX self) = true /\ last < datalow d).
Proof.
  intros Hlong Hlast Hclose Hmax.
  pose proof (sizing_ok (getcash bk) (dataclose d) (MAX self) Hclose Hmax) as Hsz.
  destruct (entry_condition d) eqn:Hentry.
  - destruct (guard (trade_count self) (MAX self)) eqn:Hguard.
    + destruct (Qlt_bool last (datalow d)) eqn:Hrise.
      * do 2 eexists. split.
        -- apply (next_with_add guard self d bk last); try eassumption.
           apply Qlt_bool_iff, Hrise.
        -- simpl. split; [intros _|reflexivity].
           repeat split; [apply Qlt_bool_iff, Hentry | apply Qlt_bool_iff, Hrise].
      * apply position_bool_state in Hlong.
        exists (sample self (getvalue bk d)), []. split.
        -- unfold next_with. rewrite Hentry, Hlong. simpl. rewrite Hguard, Hlast. simpl.
           rewrite Hrise. reflexivity.
        -- simpl. split; [discriminate|]. intros (_ & _ & H).
           apply Qlt_bool_iff in H. congruence.
    + apply position_bool_state in Hlong.
      exists (sample self (getvalue bk d)), []. split.
      * unfold next_with. rewrite Hentry, Hlong. simpl. rewrite Hguard. reflexivity.
      * simpl. split; [discriminate|]. intros (_ & H & _). discriminate.
  - assert (Hno : ~ ema_high d < datalow d).
    { intros H. apply Qlt_bool_iff in H. unfold entry_condition in Hentry. congruence. }
    destruct (next_with guard self d bk) as [[self' evs]|e] eqn:Hnext.
    + exists self', evs. split; [reflexivity|].
      apply next_with_inv in Hnext.
      destruct Hnext; try congruence; simpl; (split; [discriminate|]);
        intros (Habove & _); contradiction.
    + exfalso. apply position_bool_state in Hlong.
      unfold next_with in Hnext. rewrite Hentry, Hlong in Hnext.
      destruct (exit_condition d bk); [|discriminate].
      unfold py_last in Hlast.
      destruct (open_positions self) as [|x l] eqn:Hops; [discriminate|].
      simpl in Hnext. rewrite Hops in Hnext. discriminate.
Qed.

(** The parameterised script satisfies the rule as the specification states
    it: in LONG an add is made exactly when low > EMA(high), [trade_count <
    MAX] and low > the last recorded entry price. *)
Lemma next_add_iff (self : Strategy) (d : Lines) (bk : Broker) (last : Q) :
  state_of bk = LONG ->
  py_last (open_positions self) = Ok last ->
  ~ dataclose d == 0 ->
  MAX self <> 0%Z ->
  exists self' evs,
    next self d bk = Ok (self', evs) /\
    (existsb is_add evs = true <->
     ema_high d < datalow d /\ (trade_count self < MAX self)%Z /\ last < datalow d).
Proof.
  intros Hlong Hlast Hclose Hmax.
  destruct (add_iff_with Z.ltb self d bk last Hlong Hlast Hclose Hmax) as (self' & evs & Hnext & Hiff).
  exists self', evs. split; [exact Hnext|].
  rewrite Hiff, Z.ltb_lt. reflexivity.
Qed.

(** The version of [src/cryptorebalancingdata.py] adds while [trade_count <= MAX]. *)
Lemma fixed5_add_iff (self : Strategy) (d : Lines) (bk : Broker) (last : Q) :
  state_of bk = LONG ->
  py_last (open_positions self) = Ok last ->
  ~ dataclose d == 0 ->
  MAX self <> 0%Z ->
  exists self' evs,
    Fixed5.next self d bk = Ok (self', evs) /\
    (existsb is_add evs = true <->
     ema_high d < datalow d /\ (trade_count self <= MAX self)%Z /\ last < datalow d).
Proof.
  intros Hlong Hlast Hclose Hmax.
  destruct (add_iff_with Z.leb self d bk last Hlong Hlast Hclose Hmax) as (self' & evs & Hnext & Hiff).
  exists self', evs. split; [exact Hnext|].
  rewrite Hiff, Z.leb_le. reflexivity.
Qed.

(** C1. The version of [src/cryptorebalancingdata.py] breaks the rule at
    [trade_count = MAX]: after the first five bars of [six_rising] the
    position is open and [trade_count] is 5, the value of [MAX], so
    [trade_count < MAX] fails; on the sixth bar, whose low is above EMA(high)
    and above the last recorded lot, it still buys a sixth lot.  The
    parameterised script makes no add on the same input. *)
Theorem fixed5_adds_at_trade_count_max :
  match run Fixed5.next (ledger_fill commission) Fixed5.init (broker0 100000)
            (firstn 5 six_rising) with
  | Ok (self, bk, _) =>
      state_of bk = LONG /\
      MAX self = 5%Z /\ trade_count self = 5%Z /\
      (trade_count self <? MAX self)%Z = false /\
      py_last (open_positions self) = Ok 23 /\
      (exists self' sz,
         Fixed5.next self (mkLines 27 25 26 9 8) bk = Ok (self', [BUY_ADDITIONAL 26 sz]) /\
         trade_count self' = 6%Z) /\
      (exists self', next self (mkLines 27 25 26 9 8) bk = Ok (self', []))
  | Raise _ => False
  end.
Proof.
  vm_compute. repeat split; try reflexivity.
  - do 2 eexists. split; reflexivity.
  - eexists. reflexivity.
Qed.

(** ** C10: nothing is sold while flat *)

(** The test [if self.position] alone keeps a flat strategy from selling. *)
Lemma flat_never_sells (guard : Z -> Z -> bool) (self : Strategy) (d : Lines) (bk : Broker)
    (self' : Strategy) (evs : list Event) :
  state_of bk = FLAT ->
  next_with guard self d bk = Ok (self', evs) ->
  existsb is_sell evs = false /\
  exists added, open_positions self' = open_positions self ++ added.
Proof.
  intros Hflat Hnext. apply position_bool_state in Hflat. apply next_with_inv in Hnext.
  destruct Hnext; try congruence; simpl; (split; [reflexivity|]).
  - exists [datalow d]. reflexivity.
  - exists []. symmetry. apply app_nil_r.
Qed.

(** C10. With no position open and the position price at zero, a bar whose
    low is positive fails the test [low <= position.price] of the exit
    branch; whatever [next] returns then holds no sell and no lot record has
    been popped, and [next] does return unless [MAX] is zero (both versions
    of [next]). *)
Theorem flat_position_price_zero_no_exit
    (guard : Z -> Z -> bool) (self : Strategy) (d : Lines) (bk : Broker) :
  state_of bk = FLAT ->
  price (position bk) == 0 ->
  0 < datalow d ->
  Qle_bool (datalow d) (price (position bk)) = false /\
  exit_condition d bk = false /\
  (forall self' evs,
     next_with guard self d bk = Ok (self', evs) ->
     existsb is_sell evs = false /\
     exists added, open_positions self' = open_positions self ++ added) /\
  (MAX self <> 0%Z -> exists self' evs, next_with guard self d bk = Ok (self', evs)).
Proof.
  intros Hflat Hprice Hlow.
  assert (Hle : Qle_bool (datalow d) (price (position bk)) = false).
  { destruct (Qle_bool _ _) eqn:E; [|reflexivity].
    apply Qle_bool_iff in E. rewrite Hprice in E. lra. }
  assert (Hexit : exit_condition d bk = false).
  { unfold exit_condition. rewrite Hle. apply andb_false_r. }
  repeat split; try assumption.
  - eapply flat_never_sells; eassumption.
  - eapply flat_never_sells; eassumption.
  - intros Hmax. destruct (entry_condition d) eqn:Hentry.
    + do 2 eexists. apply next_with_entry; [assumption | assumption |].
      apply sizing_ok; [lra | exact Hmax].
    + exists (sample self (getvalue bk d)), [].
      unfold next_with. rewrite Hentry, Hexit. reflexivity.
Qed.

Lemma flat_position_price_zero_no_exit_witness :
  Qle_bool (datalow bar_exit) (price (position (broker0 1000))) = false /\
  exit_condition bar_exit (broker0 1000) = false /\
  (forall self' evs,
     next (init 5) bar_exit (broker0 1000) = Ok (self', evs) ->
     existsb is_sell evs = false /\
     exists added, open_positions self' = open_positions (init 5) ++ added) /\
  (MAX (init 5) <> 0%Z -> exists self' evs, next (init 5) bar_exit (broker0 1000) = Ok (self', evs)).
Proof.
  apply (flat_position_price_zero_no_exit Z.ltb (init 5) bar_exit (broker0 1000)).
  - reflexivity.
  - reflexivity.
  - reflexivity.
Defined.

(** The ledger keeps the premise of C10 along every run: a flat position has
    price zero. *)
Lemma ledger_run_flat_price
    (step : Strategy -> Lines -> Broker -> result (Strategy * list Event))
    (c : Q) (feed : list Lines) :
  forall (self : Strategy) (bk : Broker) (self' : Strategy) (bk' : Broker) (trace : list Event),
  (state_of bk = FLAT -> price (position bk) == 0) ->
  run step (ledger_fill c) self bk feed = Ok (self', bk', trace) ->
  state_of bk' = FLAT -> price (position bk') == 0.
Proof.
  induction feed as [|d feed IH]; intros self bk self' bk' trace Hinv Hrun; simpl in Hrun.
  - injection Hrun as <- <- <-. exact Hinv.
  - destruct (step self d bk) as [[s1 evs]|e] eqn:Hstep; simpl in Hrun; [|discriminate].
    destruct (run step (ledger_fill c) s1 _ feed) as [[[s2 b2] t2]|e] eqn:Hrest;
      simpl in Hrun; [|discriminate].
    injection Hrun as <- <- <-.
    eapply IH; [|exact Hrest].
    clear Hrest Hstep. revert bk Hinv.
    induction evs as [|ev evs IHevs]; intros bk Hinv; simpl; [exact Hinv|].
    apply IHevs. apply ledger_fill_flat_price, Hinv.
Qed.

(** ** C2: the exit *)

(** C2 as stated fails: with the two lots recorded on [bar_entry] and
    [bar_rise], the exit on [bar_exit] sells the whole position and pops one
    record; the filled sell leaves the strategy FLAT while the record [14]
    is still there. *)
Lemma exit_goes_flat_with_a_lot_left :
  match run next (ledger_fill commission) (init 5) (broker0 100000) [bar_entry; bar_rise] with
  | Ok (self, bk, _) =>
      state_of bk = LONG /\
      open_positions self = [10; 14] /\
      entry_condition bar_exit = false /\
      exit_condition bar_exit bk = true /\
      ~ flat_only_without_lots (ledger_fill commission) self bar_exit bk
  | Raise _ => False
  end.
Proof.
  destruct (run next (ledger_fill commission) (init 5) (broker0 100000) [bar_entry; bar_rise])
    as [[[self bk] trace]|e] eqn:Hrun; vm_compute in Hrun; [|discriminate].
  injection Hrun as <- <- <-.
  repeat split; try reflexivity.
  intros Hclaim.
  specialize (Hclaim _ _ eq_refl eq_refl).
  discriminate Hclaim. reflexivity.
Qed.

(** C2, amended. In LONG with the entry condition false and the exit
    condition true, [next] issues one sell, of the whole position size, pops
    the oldest lot record and counts one trade; the filled sell leaves the
    ledger flat at price zero whatever records remain (both versions of
    [next]). *)
Theorem exit_sells_all_and_pops_oldest
    (guard : Z -> Z -> bool) (c : Q) (self : Strategy) (d : Lines) (bk : Broker)
    (oldest : Q) (rest : list Q) :
  state_of bk = LONG ->
  entry_condition d = false ->
  exit_condition d bk = true ->
  open_positions self = oldest :: rest ->
  exists self',
    next_with guard self d bk = Ok (self', [SELL_CREATE (datahigh d) (size (position bk))]) /\
    open_positions self' = rest /\
    trade_count self' = (trade_count self + 1)%Z /\
    state_of (ledger_fill c bk d (SELL_CREATE (datahigh d) (size (position bk)))) = FLAT /\
    position (ledger_fill c bk d (SELL_CREATE (datahigh d) (size (position bk))))
      = mkPosition 0 0.
Proof.
  intros Hlong Hentry Hexit Hops.
  exists (drop_lot (sample self (getvalue bk d)) rest).
  split; [apply (next_with_exit guard self d bk oldest rest); assumption|].
  repeat split.
  - unfold state_of. rewrite ledger_fill_sell_all. reflexivity.
  - apply ledger_fill_sell_all.
Qed.

Lemma exit_sells_all_and_pops_oldest_witness :
  exists self',
    next (mkStrategy 5 2 [10; 14] [] None) bar_exit (mkBroker 1000 (mkPosition 3 12))
      = Ok (self', [SELL_CREATE 5 3]) /\
    open_positions self' = [14] /\
    trade_count self' = 3%Z /\
    state_of (ledger_fill commission (mkBroker 1000 (mkPosition 3 12)) bar_exit (SELL_CREATE 5 3))
      = FLAT /\
    position (ledger_fill commission (mkBroker 1000 (mkPosition 3 12)) bar_exit (SELL_CREATE 5 3))
      = mkPosition 0 0.
Proof.
  apply (exit_sells_all_and_pops_oldest Z.ltb commission (mkStrategy 5 2 [10; 14] [] None)
           bar_exit (mkBroker 1000 (mkPosition 3 12)) 10 [14]).
  - reflexivity.
  - reflexivity.
  - reflexivity.
  - reflexivity.
Defined.

(** ** C3: a sizing that is not positive *)

(** C3 as stated fails: [next] on an entry bar with a flat broker that
    reports zero cash.  The size is zero, yet the buy is issued, the low is
    recorded as a lot and the trade is counted. *)
Lemma zero_cash_entry_is_recorded :
  sizing (getcash (broker0 0)) (datalow bar_entry) (MAX (init 5)) = Ok (0 / 10 / 5) /\
  0 / 10 / 5 <= 0 /\
  match next (init 5) bar_entry (broker0 0) with
  | Ok (self, evs) =>
      evs = [BUY_CREATE 10 (0 / 10 / 5)] /\
      trade_count self = 1%Z /\
      open_positions self = [10] /\
      ~ buy_skipped (init 5) self evs
  | Raise _ => False
  end.
Proof.
  simpl. repeat split; try reflexivity.
  - discriminate.
  - intros (Hevs & _). discriminate Hevs.
Qed.

(** C3, amended. In FLAT on an entry bar whose sizing is not positive (the
    broker reporting zero cash for one) [next] has no guard: it issues the
    buy with that size, records the low as a lot and counts the trade (both
    versions of [next]). *)
Theorem nonpositive_size_buy_is_still_recorded
    (guard : Z -> Z -> bool) (self : Strategy) (d : Lines) (bk : Broker) :
  state_of bk = FLAT ->
  entry_condition d = true ->
  ~ datalow d == 0 ->
  MAX self <> 0%Z ->
  getcash bk / datalow d / inject_Z (MAX self) <= 0 ->
  exists self',
    next_with guard self d bk
      = Ok (self', [BUY_CREATE (datalow d) (getcash bk / datalow d / inject_Z (MAX self))]) /\
    open_positions self' = open_positions self ++ [datalow d] /\
    trade_count self' = (trade_count self + 1)%Z.
Proof.
  intros Hflat Hentry Hlow Hmax Hsize.
  exists (record_lot (sample self (getvalue bk d)) (datalow d)).
  split.
  - apply next_with_entry; [assumption | assumption | apply sizing_ok; assumption].
  - split; reflexivity.
Qed.

Lemma nonpositive_size_buy_is_still_recorded_witness :
  exists self',
    next (init 5) bar_entry (broker0 0) = Ok (self', [BUY_CREATE 10 (0 / 10 / 5)]) /\
    open_positions self' = [10] /\
    trade_count self' = 1%Z.
Proof.
  apply (nonpositive_size_buy_is_still_recorded Z.ltb (init 5) bar_entry (broker0 0)).
  - reflexivity.
  - reflexivity.
  - discriminate.
  - discriminate.
  - discriminate.
Defined.

(** ** C6: how far [trade_count] can go *)

Lemma count_app (k : Event -> bool) (t1 t2 : list Event) :
  count k (t1 ++ t2) = (count k t1 + count k t2)%Z.
Proof.
  unfold count. rewrite filter_app, length_app. lia.
Qed.

Lemma count_nonneg (k : Event -> bool) (t : list Event) : (0 <= count k t)%Z.
Proof. unfold count. lia. Qed.

Section TradeCount.

Variable guard : Z -> Z -> bool.
Variable slack : Z.
Hypothesis guard_bound : forall tc max, guard tc max = true -> (tc < max + slack)%Z.

(** Each order counts one trade; an add is made under the guard only. *)
Lemma next_with_counts (self : Strategy) (d : Lines) (bk : Broker)
    (self' : Strategy) (evs : list Event) :
  next_with guard self d bk = Ok (self', evs) ->
  MAX self' = MAX self /\
  trade_count self' = (trade_count self + count is_entry evs + count is_add evs
                       + count is_sell evs)%Z /\
  (count is_add evs = 0%Z \/
   count is_add evs = 1%Z /\ (trade_count self < MAX self + slack)%Z).
Proof.
  intros Hnext. apply next_with_inv in Hnext.
  destruct Hnext as [sz _ _ _ | last sz _ _ Hguard _ _ _ | oldest rest _ _ _ _ | ];
    simpl; unfold count; simpl; repeat split; try lia;
    try (left; reflexivity).
  right. split; [reflexivity | apply guard_bound, Hguard].
Qed.

Lemma drive_counts (shown : list (Lines * Broker)) :
  forall (self self' : Strategy) (trace : list Event),
  drive (next_with guard) self shown = Ok (self', trace) ->
  MAX self' = MAX self /\
  trade_count self' = (trade_count self + count is_entry trace + count is_add trace
                       + count is_sell trace)%Z /\
  (count is_add trace <= Z.max 0 (MAX self + slack - trade_count self))%Z.
Proof.
  induction shown as [|[d bk] shown IH]; intros self self' trace Hrun; simpl in Hrun.
  - injection Hrun as <- <-. unfold count; simpl. repeat split; lia.
  - destruct (next_with guard self d bk) as [[s1 evs]|e] eqn:Hnext; simpl in Hrun; [|discriminate].
    destruct (drive (next_with guard) s1 shown) as [[s2 t2]|e] eqn:Hrest;
      simpl in Hrun; [|discriminate].
    injection Hrun as <- <-.
    apply next_with_counts in Hnext as (Hmax1 & Htc1 & Hadd1).
    apply IH in Hrest as (Hmax2 & Htc2 & Hadd2).
    rewrite !count_app.
    pose proof (count_nonneg is_entry evs). pose proof (count_nonneg is_sell evs).
    repeat split; try lia.
Qed.

End TradeCount.

(** C6 as stated fails: with [MAX = 2], an entry, one add, an exit that
    closes the cycle (the position is flat after it) and a new entry make
    four trades, more than [MAX] plus the one exit. *)
Lemma reentry_exceeds_adds_plus_exits :
  match run next (ledger_fill commission) (init 2) (broker0 100000)
            [bar_entry; bar_rise; bar_exit] with
  | Ok (_, bk, _) => state_of bk = FLAT
  | Raise _ => False
  end /\
  match run next (ledger_fill commission) (init 2) (broker0 100000)
            [bar_entry; bar_rise; bar_exit; bar_entry] with
  | Ok (self, bk, trace) =>
      trade_count self = 4%Z /\ MAX self = 2%Z /\
      map is_sell trace = [false; false; true; false] /\
      ~ within_adds_plus_exits self trace
  | Raise _ => False
  end.
Proof.
  split; [vm_compute; reflexivity|].
  destruct (run next (ledger_fill commission) (init 2) (broker0 100000)
              [bar_entry; bar_rise; bar_exit; bar_entry])
    as [[[self bk] trace]|e] eqn:Hrun; vm_compute in Hrun; [|discriminate].
  injection Hrun as <- <- <-.
  repeat split. unfold within_adds_plus_exits, count. simpl. lia.
Qed.

Lemma count_cons (k : Event -> bool) (e : Event) (t : list Event) :
  count k (e :: t) = ((if k e then 1 else 0) + count k t)%Z.
Proof.
  unfold count. cbn [filter]. destruct (k e); cbn [length]; lia.
Qed.

(** While no lot is recorded a run that returns can only wait or enter: an
    add reads the last record and a sell pops one.  So the first order of a
    run from [init] is an entry. *)
Lemma drive_from_no_lots (guard : Z -> Z -> bool) (shown : list (Lines * Broker)) :
  forall (self self' : Strategy) (trace : list Event),
  open_positions self = [] ->
  drive (next_with guard) self shown = Ok (self', trace) ->
  (trace = [] /\ trade_count self' = trade_count self) \/
  exists (p sz : Q) (entered : Strategy) (shown' : list (Lines * Broker)) (rest : list Event),
    trace = BUY_CREATE p sz :: rest /\
    trade_count entered = (trade_count self + 1)%Z /\
    MAX entered = MAX self /\
    drive (next_with guard) entered shown' = Ok (self', rest).
Proof.
  induction shown as [|[d bk] shown IH]; intros self self' trace Hnone Hrun; simpl in Hrun.
  - injection Hrun as <- <-. left. split; reflexivity.
  - destruct (next_with guard self d bk) as [[s1 evs]|e] eqn:Hnext; simpl in Hrun; [|discriminate].
    destruct (drive (next_with guard) s1 shown) as [[s2 t2]|e] eqn:Hrest;
      simpl in Hrun; [|discriminate].
    injection Hrun as <- <-.
    apply next_with_inv in Hnext.
    destruct Hnext as [sz _ _ _ | last sz _ _ _ Hlast _ _ | oldest rest _ _ _ Hops | ].
    + right. exists (datalow d), sz, (record_lot (sample self (getvalue bk d)) (datalow d)),
        shown, t2.
      repeat split. exact Hrest.
    + rewrite Hnone in Hlast. discriminate.
    + rewrite Hnone in Hops. discriminate.
    + apply IH in Hrest; [|exact Hnone]. exact Hrest.
Qed.

(** C6, amended. Over every run of the parameterised script from
    [init max], whatever cash and position the broker shows on each bar,
    every order counts one trade, the adds number at most [max - 1], and so
    the final [trade_count] never exceeds [max] plus one exit trade per sell
    plus one trade per entry from FLAT after the first ([max] read as 1 when
    it is smaller). *)
Theorem trade_count_within_max_plus_entries_and_exits
    (max : Z) (shown : list (Lines * Broker)) (self : Strategy) (trace : list Event) :
  drive next (init max) shown = Ok (self, trace) ->
  trade_count self = (count is_entry trace + count is_add trace + count is_sell trace)%Z /\
  (count is_add trace <= Z.max 0 (max - 1))%Z /\
  (trade_count self
   <= Z.max 1 max + count is_sell trace + (count is_entry trace - 1))%Z.
Proof.
  intros Hrun.
  destruct (drive_from_no_lots Z.ltb shown (init max) self trace eq_refl Hrun)
    as [[-> Htc] | (p & sz & entered & shown' & rest & -> & Htc & Hmax & Hrest)].
  - rewrite Htc. unfold count. simpl. lia.
  - apply (drive_counts Z.ltb 0) in Hrest as (_ & Htc' & Hadd).
    + rewrite !count_cons. cbn [is_entry is_add is_sell].
      rewrite Htc, Hmax in *. cbn [init trade_count MAX] in *.
      pose proof (count_nonneg is_entry rest). pose proof (count_nonneg is_sell rest).
      repeat split; lia.
    + intros tc m H. apply Z.ltb_lt in H. lia.
Qed.

Lemma trade_count_within_max_plus_entries_and_exits_witness :
  exists self trace,
    drive next (init 2)
          [ (bar_entry, broker0 100000);
            (bar_rise, mkBroker 50000 (mkPosition 5000 10));
            (bar_exit, mkBroker 25000 (mkPosition 6800 11));
            (bar_entry, broker0 59000) ] = Ok (self, trace) /\
    (trade_count self
     = count is_entry trace + count is_add trace + count is_sell trace)%Z /\
    (count is_add trace <= Z.max 0 (2 - 1))%Z /\
    (trade_count self
     <= Z.max 1 2 + count is_sell trace + (count is_entry trace - 1))%Z.
Proof.
  do 2 eexists. split.
  - vm_compute. reflexivity.
  - eapply (trade_count_within_max_plus_entries_and_exits 2
              [ (bar_entry, broker0 100000);
                (bar_rise, mkBroker 50000 (mkPosition 5000 10));
                (bar_exit, mkBroker 25000 (mkPosition 6800 11));
                (bar_entry, broker0 59000) ]).
    vm_compute. reflexivity.
Defined.

(** The bound is the one of the guard [trade_count < MAX]: the version with
    [<=] breaks it on six rising bars, with one entry, five adds and no
    sell. *)
Example fixed5_breaks_the_bound :
  exists self trace,
    drive Fixed5.next Fixed5.init
          (combine six_rising
                   (broker0 100000 :: repeat (mkBroker 50000 (mkPosition 1000 10)) 5))
      = Ok (self, trace) /\
    MAX self = 5%Z /\ trade_count self = 6%Z /\
    count is_entry trace = 1%Z /\ count is_sell trace = 0%Z /\
    ~ (trade_count self
       <= Z.max 1 (MAX self) + count is_sell trace + (count is_entry trace - 1))%Z.
Proof.
  do 2 eexists. split; [vm_compute; reflexivity|].
  repeat split. vm_compute. intros H. apply H. reflexivity.
Qed.

(** The bar loop with a broker that fills is one of those runs. *)
Lemma run_is_driven
    (step : Strategy -> Lines -> Broker -> result (Strategy * list Event))
    (fill : Broker -> Lines -> Event -> Broker) (feed : list Lines) :
  forall (self : Strategy) (bk : Broker) (self' : Strategy) (bk' : Broker) (trace : list Event),
  run step fill self bk feed = Ok (self', bk', trace) ->
  exists shown, map fst shown = feed /\ drive step self shown = Ok (self', trace).
Proof.
  induction feed as [|d feed IH]; intros self bk self' bk' trace Hrun; simpl in Hrun.
  - injection Hrun as <- <- <-. exists []. split; reflexivity.
  - destruct (step self d bk) as [[s1 evs]|e] eqn:Hstep; simpl in Hrun; [|discriminate].
    destruct (run step fill s1 _ feed) as [[[s2 b2] t2]|e] eqn:Hrest;
      simpl in Hrun; [|discriminate].
    injection Hrun as <- <- <-.
    apply IH in Hrest as (shown & Hfeed & Hdrive).
    exists ((d, bk) :: shown). split; [simpl; f_equal; exact Hfeed|].
    simpl. rewrite Hstep. simpl. rewrite Hdrive. reflexivity.
Qed.

Lemma run_trade_count_bound
    (fill : Broker -> Lines -> Event -> Broker) (max : Z) (bk : Broker) (feed : list Lines)
    (self : Strategy) (bk' : Broker) (trace : list Event) :
  run next fill (init max) bk feed = Ok (self, bk', trace) ->
  (trade_count self
   <= Z.max 1 max + count is_sell trace + (count is_entry trace - 1))%Z.
Proof.
  intros Hrun. apply run_is_driven in Hrun as (shown & _ & Hdrive).
  destruct (drive_from_no_lots Z.ltb shown (init max) self trace eq_refl Hdrive)
    as [[-> Htc] | (p & sz & entered & shown' & rest & -> & Htc & Hmax & Hrest)].
  - rewrite Htc. unfold count. simpl. lia.
  - apply (drive_counts Z.ltb 0) in Hrest as (_ & Htc' & Hadd).
    + rewrite !count_cons. cbn [is_entry is_add is_sell].
      rewrite Htc, Hmax in *. cbn [init trade_count MAX] in *.
      pose proof (count_nonneg is_entry rest). pose proof (count_nonneg is_sell rest). lia.
    + intros tc m H. apply Z.ltb_lt in H. lia.
Qed.

(** The version of [src/cryptorebalancingdata.py] allows one add more: five
    after the entry. *)
Lemma fixed5_trade_count_bound
    (shown : list (Lines * Broker)) (self : Strategy) (trace : list Event) :
  drive Fixed5.next Fixed5.init shown = Ok (self, trace) ->
  (count is_add trace <= 5)%Z /\
  (trade_count self <= 5 + count is_sell trace + count is_entry trace)%Z.
Proof.
  intros Hrun.
  destruct (drive_from_no_lots Z.leb shown Fixed5.init self trace eq_refl Hrun)
    as [[-> Htc] | (p & sz & entered & shown' & rest & -> & Htc & Hmax & Hrest)].
  - rewrite Htc. unfold count. simpl. lia.
  - apply (drive_counts Z.leb 1) in Hrest as (_ & Htc' & Hadd).
    + rewrite !count_cons. cbn [is_entry is_add is_sell].
      rewrite Htc, Hmax in *. cbn [Fixed5.init init trade_count MAX] in *.
      pose proof (count_nonneg is_entry rest). pose proof (count_nonneg is_sell rest).
      split; lia.
    + intros tc m H. apply Z.leb_le in H. lia.
Qed.

(** ** C7: the unrealised profit of the result row *)

Lemma fold_left_Qplus_lot_percents (c : Q) (lots : list Q) :
  forall a : Q,
  fold_left Qplus (map (fun entry_price => (c - entry_price) / entry_price * 100) lots) a
  == a + sum_of_lot_percents c lots.
Proof.
  induction lots as [|e lots IH]; intros a; simpl.
  - ring.
  - rewrite IH. unfold lot_percent. ring.
Qed.





(** After a bar the equity curve is not empty, so [stop] returns. *)
Lemma run_samples_equity (guard : Z -> Z -> bool)
    (fill : Broker -> Lines -> Event -> Broker) (feed : list Lines) :
  forall (self : Strategy) (bk : Broker) (self' : Strategy) (bk' : Broker) (trace : list Event),
  run (next_with guard) fill self bk feed = Ok (self', bk', trace) ->
  (length (equity_curve self') = length (equity_curve self) + length feed)%nat.
Proof.
  induction feed as [|d feed IH]; intros self bk self' bk' trace Hrun; simpl in Hrun.
  - injection Hrun as <- <- <-. simpl. lia.
  - destruct (next_with guard self d bk) as [[s1 evs]|e] eqn:Hnext; simpl in Hrun; [|discriminate].
    destruct (run (next_with guard) fill s1 _ feed) as [[[s2 b2] t2]|e] eqn:Hrest;
      simpl in Hrun; [|discriminate].
    injection Hrun as <- <- <-.
    apply IH in Hrest. rewrite Hrest. simpl.
    apply next_with_inv in Hnext.
    destruct Hnext; simpl; rewrite length_app; simpl; lia.
Qed.

(** When the bar loop returns on a feed that is not empty, the row is
    produced. *)
Lemma backtest_returns (guard : Z -> Z -> bool)
    (fill : Broker -> Lines -> Event -> Broker) (max : Z) (initial_value : Q)
    (d : Lines) (feed : list Lines) (self : Strategy) (bk : Broker) (trace : list Event) :
  ~ initial_value == 0 ->
  run (next_with guard) fill (init max) (broker0 initial_value) (d :: feed)
    = Ok (self, bk, trace) ->
  exists row, backtest (next_with guard) fill (init max) initial_value (d :: feed) = Ok row.
Proof.
  intros Hcash Hrun. pose proof (run_samples_equity _ _ _ _ _ _ _ _ Hrun) as Hlen.
  unfold backtest. change {| getcash := initial_value; position := {| size := 0; price := 0 |} |}
    with (broker0 initial_value).
  rewrite Hrun. cbn [bind fst snd].
  unfold stop. destruct (equity_curve self) as [|first rest] eqn:Hcurve;
    [simpl in Hlen; lia|].
  cbn [iloc0 bind].
  destruct (py_last_nonempty (map dataclose (d :: feed))) as [c Hc]; [discriminate|].
  unfold last_close. rewrite Hc. cbn [bind].
  rewrite (py_div_ok _ _ Hcash). cbn [bind]. eexists. reflexivity.
Qed.

(** ** C9: lot records outlive the position *)

Lemma sell_pops_one (guard : Z -> Z -> bool) (self : Strategy) (d : Lines) (bk : Broker)
    (self' : Strategy) (evs : list Event) (p sz : Q) :
  next_with guard self d bk = Ok (self', evs) ->
  In (SELL_CREATE p sz) evs ->
  evs = [SELL_CREATE p sz] /\
  sz = size (position bk) /\
  exists oldest, open_positions self = oldest :: open_positions self'.
Proof.
  intros Hnext Hin. apply next_with_inv in Hnext.
  destruct Hnext as [sz' _ _ _ | last sz' _ _ _ _ _ _ | oldest rest _ _ _ Hops | ];
    simpl in Hin; try contradiction; destruct Hin as [Heq | []]; try discriminate.
  injection Heq as <- <-. repeat split. exists oldest. exact Hops.
Qed.

(** C9. Every sell that [next] issues is the only order of its bar, has the
    size of the whole position and removes exactly one lot record, the
    oldest.  On the feed [bar_entry; bar_rise; bar_exit] two lots are
    recorded, the one sell of the exit bar closes the position (size zero,
    FLAT) and the record [14] is still there; the unrealised profit of the
    result row is the percentage of that record, not zero. *)
Theorem one_record_per_sell_and_lots_outlive_the_position :
  (forall (guard : Z -> Z -> bool) (self : Strategy) (d : Lines) (bk : Broker)
          (self' : Strategy) (evs : list Event) (p sz : Q),
      next_with guard self d bk = Ok (self', evs) ->
      In (SELL_CREATE p sz) evs ->
      evs = [SELL_CREATE p sz] /\
      sz = size (position bk) /\
      exists oldest, open_positions self = oldest :: open_positions self') /\
  match run next (ledger_fill commission) (init 5) (broker0 100000) [bar_entry; bar_rise] with
  | Ok (self2, bk2, _) =>
      open_positions self2 = [10; 14] /\
      state_of bk2 = LONG /\
      match run next (ledger_fill commission) self2 bk2 [bar_exit] with
      | Ok (self3, bk3, trace3) =>
          trace3 = [SELL_CREATE 5 (size (position bk2))] /\
          size (position bk3) = 0 /\
          state_of bk3 = FLAT /\
          open_positions self3 = [14]
      | Raise _ => False
      end
  | Raise _ => False
  end /\
  match backtest next (ledger_fill commission) (init 5) 100000
                 [bar_entry; bar_rise; bar_exit] with
  | Ok row =>
      unrealized_profit_percent row == lot_percent 5 14 /\
      ~ unrealized_profit_percent row == 0
  | Raise _ => False
  end.
Proof.
  split; [exact sell_pops_one|].
  vm_compute. repeat split; try reflexivity. discriminate.
Qed.

Lemma one_record_per_sell_and_lots_outlive_the_position_witness :
  [SELL_CREATE 5 3] = [SELL_CREATE 5 3] /\
  3 = size (position (mkBroker 1000 (mkPosition 3 12))) /\
  exists oldest, [10; 14] = oldest :: open_positions (mkStrategy 5 3 [14] [1015] None).
Proof.
  apply (proj1 one_record_per_sell_and_lots_outlive_the_position Z.ltb
           (mkStrategy 5 2 [10; 14] [] None) bar_exit (mkBroker 1000 (mkPosition 3 12))
           (mkStrategy 5 3 [14] [1015] None) [SELL_CREATE 5 3] 5 3).
  - reflexivity.
  - simpl. left. reflexivity.
Defined.

(** ** C4: [stop] computes the drawdown the specification describes *)

Lemma fold_left_map_fused {A B C : Type} (g : A -> B -> A) (f : C -> B) (l : list C) :
  forall a : A, fold_left g (map f l) a = fold_left (fun m i => g m (f i)) l a.
Proof.
  induction l as [|x l IH]; intros a; simpl; [reflexivity | apply IH].
Qed.

(** A series mapped element by element is the same as mapped index by index. *)
Lemma map_by_index (g : Q -> Q) (l : list Q) :
  map g l = map (fun i => g (nth i l 0)) (seq 0 (length l)).
Proof.
  induction l as [|x l IH]; simpl; [reflexivity|].
  f_equal. rewrite <- seq_shift, map_map. exact IH.
Qed.

Lemma series_zip_map (f : Q -> Q -> Q) (g h : nat -> Q) (l : list nat) :
  series_zip f (map g l) (map h l) = map (fun i => f (g i) (h i)) l.
Proof.
  induction l as [|i l IH]; simpl; [reflexivity | f_equal; exact IH].
Qed.

(** The running maximum of [N k, N (k+1), ...] started at [m], index by index. *)
Lemma cummax_from_by_index (N : nat -> Q) (n : nat) :
  forall (m : Q) (k : nat),
  cummax_from m (map N (seq k n))
  = map (fun i => fold_left (fun a j => Qmax a (N j)) (seq k (S i - k)) m) (seq k n).
Proof.
  induction n as [|n IH]; intros m k; cbn [seq map cummax_from]; [reflexivity|].
  f_equal.
  - replace (S k - k)%nat with 1%nat by lia. reflexivity.
  - rewrite IH. apply map_ext_in. intros i Hi. apply in_seq in Hi.
    replace (S i - k)%nat with (S (S i - S k)) by lia. reflexivity.
Qed.

Lemma cummax_by_index (curve : list Q) :
  cummax (map (Finalize.normalized curve) (seq 0 (length curve)))
  = map (Finalize.peak curve) (seq 0 (length curve)).
Proof.
  destruct curve as [|first rest]; [reflexivity|].
  cbn [length seq map cummax]. f_equal.
  rewrite cummax_from_by_index. apply map_ext_in. intros i Hi. apply in_seq in Hi.
  unfold Finalize.peak. replace (S i - 1)%nat with i by lia. reflexivity.
Qed.

Lemma drawdown_series_by_index (first : Q) (rest : list Q) :
  drawdown_series (first :: rest) first
  = map (Finalize.drawdown (first :: rest)) (seq 0 (length (first :: rest))).
Proof.
  unfold drawdown_series, series_div_scalar, series_div, series_sub.
  rewrite (map_by_index (fun x => x / first) (first :: rest)).
  change (fun i => nth i (first :: rest) 0 / first)
    with (Finalize.normalized (first :: rest)).
  rewrite cummax_by_index, !series_zip_map. reflexivity.
Qed.

(** C4. On an equity curve with a first sample [stop] returns, and the
    [max_drawdown] it stores is the one of the specification: the samples
    divided by the first sample, the running maximum up to each index, the
    drawdown [(normalized - peak) / peak] at each index, and the minimum of
    the drawdowns times 100. *)
Theorem stop_max_drawdown_is_min_drawdown_times_100
    (self : Strategy) (first : Q) (rest : list Q) :
  equity_curve self = first :: rest ->
  exists self',
    stop self = Ok self' /\
    max_drawdown self' = Some (Finalize.max_drawdown_pct (equity_curve self)).
Proof.
  intros Hcurve. unfold stop. rewrite Hcurve. cbn [iloc0 bind].
  eexists. split; [reflexivity|]. cbn [max_drawdown]. f_equal.
  rewrite drawdown_series_by_index. unfold Finalize.max_drawdown_pct.
  cbn [length seq map series_min]. rewrite fold_left_map_fused.
  replace (S (length rest) - 1)%nat with (length rest) by lia.
  reflexivity.
Qed.

Lemma stop_max_drawdown_is_min_drawdown_times_100_witness :
  exists self',
    stop (mkStrategy 5 0 [] [100; 120; 90; 130; 65] None) = Ok self' /\
    max_drawdown self' = Some (Finalize.max_drawdown_pct [100; 120; 90; 130; 65]).
Proof.
  apply (stop_max_drawdown_is_min_drawdown_times_100
           (mkStrategy 5 0 [] [100; 120; 90; 130; 65] None) 100 [120; 90; 130; 65]).
  reflexivity.
Defined.

(** ** C5: bounds of the maximum drawdown *)

Lemma Qdiv_pos (x k : Q) : 0 < x -> 0 < k -> 0 < x / k.
Proof.
  intros Hx Hk. apply Qlt_shift_div_l; [exact Hk | lra].
Qed.

Lemma Qdiv_le_mono (x y k : Q) : 0 < k -> x <= y -> x / k <= y / k.
Proof.
  intros Hk Hxy. unfold Qdiv. apply Qmult_le_compat_r; [exact Hxy|].
  apply Qlt_le_weak, Qinv_lt_0_compat, Hk.
Qed.

(** One drawdown term, for a sample under its peak. *)
Lemma drawdown_term_range (x q : Q) : 0 < x -> x <= q -> -(1) <= (x - q) / q /\ (x - q) / q <= 0.
Proof.
  intros Hx Hxq. assert (Hq : 0 < q) by lra. split.
  - apply Qle_shift_div_l; [exact Hq | lra].
  - apply Qle_shift_div_r; [exact Hq | lra].
Qed.

Lemma drawdown_term_zero (x q : Q) : 0 < x -> q == x -> (x - q) / q == 0.
Proof.
  intros Hx Hq. rewrite Hq. field. lra.
Qed.

(** Each running maximum is at or above its sample. *)
Lemma cummax_from_above (s : list Q) :
  forall m : Q, 0 < m -> Forall (fun x => 0 < x) s ->
  Forall2 (fun x q => 0 < x /\ x <= q) s (cummax_from m s).
Proof.
  induction s as [|x s IH]; intros m Hm Hs; simpl; constructor.
  - inversion Hs; subst. split; [assumption | apply Q.le_max_r].
  - inversion Hs as [|? ? Hx Hs']; subst. apply IH; [|exact Hs'].
    apply Qlt_le_trans with x; [exact Hx | apply Q.le_max_r].
Qed.

Lemma cummax_above (s : list Q) :
  Forall (fun x => 0 < x) s -> Forall2 (fun x q => 0 < x /\ x <= q) s (cummax s).
Proof.
  destruct s as [|x s]; intros Hs; simpl; constructor; inversion Hs; subst.
  - split; [assumption | apply Qle_refl].
  - apply cummax_from_above; assumption.
Qed.

(** On a series that does not decrease the running maximum is the sample. *)
Lemma cummax_from_sorted (s : list Q) :
  forall m : Q, HdRel Qle m s -> Sorted Qle s -> Forall2 Qeq (cummax_from m s) s.
Proof.
  induction s as [|x s IH]; intros m Hm Hs; simpl; constructor.
  - inversion Hm; subst. apply Q.max_r. assumption.
  - inversion Hs as [|? ? Hs' Hx]; subst. apply IH; [|exact Hs'].
    inversion Hm as [|? ? Hmx]; subst.
    destruct Hx as [|y s Hxy]; constructor.
    apply Q.max_lub; [apply Qle_trans with x; assumption | exact Hxy].
Qed.

Lemma cummax_sorted (s : list Q) : Sorted Qle s -> Forall2 Qeq (cummax s) s.
Proof.
  destruct s as [|x s]; intros Hs; simpl; constructor.
  - reflexivity.
  - inversion Hs; subst. apply cummax_from_sorted; assumption.
Qed.

Lemma series_div_scalar_pos (s : list Q) (k : Q) :
  0 < k -> Forall (fun x => 0 < x) s -> Forall (fun x => 0 < x) (series_div_scalar s k).
Proof.
  intros Hk Hs. unfold series_div_scalar. induction Hs; simpl; constructor.
  - apply Qdiv_pos; assumption.
  - assumption.
Qed.

Lemma series_div_scalar_sorted (s : list Q) (k : Q) :
  0 < k -> Sorted Qle s -> Sorted Qle (series_div_scalar s k).
Proof.
  intros Hk Hs. unfold series_div_scalar. induction Hs as [|x s Hs IH Hx]; simpl; constructor.
  - exact IH.
  - destruct Hx as [|y s Hxy]; simpl; constructor. apply Qdiv_le_mono; assumption.
Qed.

Lemma drawdown_terms_range (c p : list Q) :
  Forall2 (fun x q => 0 < x /\ x <= q) c p ->
  Forall (fun v => -(1) <= v /\ v <= 0) (series_div (series_sub c p) p).
Proof.
  induction 1 as [|x q c p [Hx Hxq] _ IH]; simpl; constructor.
  - apply drawdown_term_range; assumption.
  - exact IH.
Qed.

Lemma drawdown_terms_zero (c p : list Q) :
  Forall (fun x => 0 < x) c -> Forall2 Qeq p c ->
  Forall (fun v => 0 <= v /\ v <= 0) (series_div (series_sub c p) p).
Proof.
  intros Hc Hpc. revert Hc.
  induction Hpc as [|q x p c Hqx _ IH]; intros Hc; simpl; constructor;
    inversion Hc; subst.
  - rewrite (drawdown_term_zero x q); [lra | assumption | assumption].
  - apply IH. assumption.
Qed.

(** The minimum of a series lies where all its terms lie. *)
Lemma fold_left_Qmin_range (lo hi : Q) (s : list Q) :
  forall a : Q, lo <= a /\ a <= hi ->
  Forall (fun v => lo <= v /\ v <= hi) s ->
  lo <= fold_left Qmin s a /\ fold_left Qmin s a <= hi.
Proof.
  induction s as [|x s IH]; intros a Ha Hs; simpl; [exact Ha|].
  inversion Hs as [|? ? Hx Hs']; subst. apply IH; [|exact Hs'].
  split.
  - apply Q.min_glb; [apply Ha | apply Hx].
  - apply Qle_trans with a; [apply Q.le_min_l | apply Ha].
Qed.

Lemma series_min_range (lo hi : Q) (s : list Q) :
  lo <= 0 -> 0 <= hi ->
  Forall (fun v => lo <= v /\ v <= hi) s ->
  lo <= series_min s /\ series_min s <= hi.
Proof.
  intros Hlo Hhi Hs. destruct s as [|x s]; simpl; [split; assumption|].
  inversion Hs; subst. apply fold_left_Qmin_range; assumption.
Qed.

(** C5. For an equity curve that is not empty and whose samples are all
    positive, [stop] returns and the maximum drawdown it stores lies between
    -100 and 0; it is 0 when the curve never decreases. *)
Theorem max_drawdown_between_minus_100_and_0 (self : Strategy) :
  equity_curve self <> [] ->
  Forall (fun v => 0 < v) (equity_curve self) ->
  exists self' m,
    stop self = Ok self' /\
    max_drawdown self' = Some m /\
    -(100) <= m /\ m <= 0 /\
    (Sorted Qle (equity_curve self) -> m == 0).
Proof.
  intros Hne Hpos.
  destruct (equity_curve self) as [|first rest] eqn:Hcurve; [contradiction|].
  assert (Hfirst : 0 < first) by (inversion Hpos; assumption).
  unfold stop. rewrite Hcurve. cbn [iloc0 bind].
  do 2 eexists. split; [reflexivity|]. split; [reflexivity|].
  pose proof (series_div_scalar_pos _ _ Hfirst Hpos) as Hnorm.
  unfold drawdown_series.
  set (c := series_div_scalar (first :: rest) first) in *.
  destruct (series_min_range (-(1)) 0 (series_div (series_sub c (cummax c)) (cummax c)))
    as [Hlo Hhi]; [lra | lra | apply drawdown_terms_range, cummax_above, Hnorm |].
  split; [lra|]. split; [lra|].
  intros Hsorted.
  destruct (series_min_range 0 0 (series_div (series_sub c (cummax c)) (cummax c)))
    as [Hlo0 Hhi0]; [lra | lra | | lra].
  apply drawdown_terms_zero; [exact Hnorm|].
  apply cummax_sorted, series_div_scalar_sorted; assumption.
Qed.

Lemma max_drawdown_between_minus_100_and_0_witness :
  exists self' m,
    stop (mkStrategy 5 0 [] [100; 120; 90; 130; 65] None) = Ok self' /\
    max_drawdown self' = Some m /\
    -(100) <= m /\ m <= 0 /\
    (Sorted Qle [100; 120; 90; 130; 65] -> m == 0).
Proof.
  apply (max_drawdown_between_minus_100_and_0 (mkStrategy 5 0 [] [100; 120; 90; 130; 65] None)).
  - discriminate.
  - simpl. repeat constructor.
Defined.

(** A curve that never decreases, run through [stop]. *)
Example max_drawdown_of_rising_curve :
  exists self',
    stop (mkStrategy 5 0 [] [100; 100; 120; 130] None) = Ok self' /\
    option_map Qred (max_drawdown self') = Some 0.
Proof.
  eexists. split; reflexivity.
Qed.

(** The curve of the witness loses half from its peak. *)
Example max_drawdown_of_a_halved_curve :
  exists self',
    stop (mkStrategy 5 0 [] [100; 120; 90; 130; 65] None) = Ok self' /\
    option_map Qred (max_drawdown self') = Some (-(50)).
Proof.
  eexists. split; reflexivity.
Qed.

(** * Further properties of the code *)

(** ** [next]: when it raises *)

Lemma sizing_raises (cash reference : Q) (max : Z) (e : exn) :
  sizing cash reference max = Raise e <->
  e = ZeroDivisionError /\ (reference == 0 \/ max = 0%Z).
Proof.
  unfold sizing, py_div.
  destruct (Qeq_bool reference 0) eqn:Hr; simpl.
  - apply Qeq_bool_iff in Hr. split.
    + intros [= <-]. auto.
    + intros [-> _]. reflexivity.
  - apply Qeq_bool_false_iff in Hr.
    destruct (Qeq_bool (inject_Z max) 0) eqn:Hm.
    + apply Qeq_bool_iff in Hm. split.
      * intros [= <-]. split; [reflexivity|]. right.
        unfold Qeq in Hm. simpl in Hm. lia.
      * intros [-> _]. reflexivity.
    + apply Qeq_bool_false_iff in Hm. split; [discriminate|].
      intros [_ [H | ->]]; [contradiction|]. exfalso. apply Hm. reflexivity.
Qed.

Lemma py_last_raises (l : list Q) (e : exn) :
  py_last l = Raise e <-> e = IndexError /\ l = [].
Proof.
  destruct l as [|x l].
  - simpl. split; [intros [= <-]; auto | intros [-> _]; reflexivity].
  - destruct (py_last_nonempty (x :: l)) as [y Hy]; [discriminate|].
    rewrite Hy. split; [discriminate | intros [_ H]; discriminate].
Qed.

Lemma next_with_raise_inv
    (guard : Z -> Z -> bool) (self : Strategy) (d : Lines) (bk : Broker) (e : exn) :
  next_with guard self d bk = Raise e ->
  (entry_condition d = true /\ state_of bk = FLAT /\
   e = ZeroDivisionError /\ (datalow d == 0 \/ MAX self = 0%Z)) \/
  (entry_condition d = true /\ state_of bk = LONG /\
   guard (trade_count self) (MAX self) = true /\
   e = IndexError /\ open_positions self = []) \/
  (entry_condition d = true /\ state_of bk = LONG /\
   guard (trade_count self) (MAX self) = true /\
   e = ZeroDivisionError /\
   exists last, py_last (open_positions self) = Ok last /\ last < datalow d /\
                (dataclose d == 0 \/ MAX self = 0%Z)) \/
  (entry_condition d = false /\ exit_condition d bk = true /\ state_of bk = LONG /\
   e = IndexError /\ open_positions self = []).
Proof.
  unfold next_with, state_of.
  destruct (entry_condition d) eqn:Hentry.
  - destruct (position_bool (position bk)) eqn:Hpos; cbn [negb sample trade_count MAX open_positions].
    + destruct (guard (trade_count self) (MAX self)) eqn:Hguard; [|discriminate].
      destruct (py_last (open_positions self)) as [last|e'] eqn:Hlast; cbn [bind].
      * destruct (Qlt_bool last (datalow d)) eqn:Hrise; [|discriminate].
        destruct (sizing (getcash bk) (dataclose d) (MAX self)) as [sz|e'] eqn:Hsz;
          cbn [bind]; [discriminate|].
        apply sizing_raises in Hsz as [-> Hz]. intros [= <-].
        right. right. left. repeat split; auto.
        exists last. repeat split; auto. apply Qlt_bool_iff, Hrise.
      * apply py_last_raises in Hlast as [-> Hnil]. intros [= <-].
        right. left. repeat split; auto.
    + destruct (sizing (getcash bk) (datalow d) (MAX self)) as [sz|e'] eqn:Hsz;
        cbn [bind]; [discriminate|].
      apply sizing_raises in Hsz as [-> Hz]. intros [= <-].
      left. repeat split; auto.
  - destruct (exit_condition d bk) eqn:Hexit; [|discriminate].
    destruct (position_bool (position bk)) eqn:Hpos; [|discriminate].
    cbn [sample open_positions].
    destruct (open_positions self) as [|oldest rest] eqn:Hops; cbn [py_pop0 bind];
      [|discriminate].
    intros [= <-]. right. right. right. repeat split; auto.
Qed.

(** X1. [next] raises in four situations only: a zero low or a zero [MAX] at
    the entry from FLAT; no lot record at all when an add is tried; a zero
    close or a zero [MAX] when an add is sized; no lot record when the exit
    pops one.  Each of them makes it raise. *)
Theorem next_raises_iff
    (guard : Z -> Z -> bool) (self : Strategy) (d : Lines) (bk : Broker) (e : exn) :
  next_with guard self d bk = Raise e <->
  (entry_condition d = true /\ state_of bk = FLAT /\
   e = ZeroDivisionError /\ (datalow d == 0 \/ MAX self = 0%Z)) \/
  (entry_condition d = true /\ state_of bk = LONG /\
   guard (trade_count self) (MAX self) = true /\
   e = IndexError /\ open_positions self = []) \/
  (entry_condition d = true /\ state_of bk = LONG /\
   guard (trade_count self) (MAX self) = true /\
   e = ZeroDivisionError /\
   exists last, py_last (open_positions self) = Ok last /\ last < datalow d /\
                (dataclose d == 0 \/ MAX self = 0%Z)) \/
  (entry_condition d = false /\ exit_condition d bk = true /\ state_of bk = LONG /\
   e = IndexError /\ open_positions self = []).
Proof.
  split; [apply next_with_raise_inv|].
  intros [(Hentry & Hstate & -> & Hz)
         | [(Hentry & Hstate & Hguard & -> & Hnil)
         | [(Hentry & Hstate & Hguard & -> & last & Hlast & Hrise & Hz)
         | (Hentry & Hexit & Hstate & -> & Hnil)]]];
    apply position_bool_state in Hstate; unfold next_with;
    rewrite Hentry, ?Hexit, Hstate; cbn [negb sample trade_count MAX open_positions].
  - replace (sizing (getcash bk) (datalow d) (MAX self)) with (@Raise Q ZeroDivisionError);
      [reflexivity | symmetry; apply sizing_raises; auto].
  - rewrite Hguard, Hnil. reflexivity.
  - apply Qlt_bool_iff in Hrise. rewrite Hguard, Hlast. cbn [bind]. rewrite Hrise.
    replace (sizing (getcash bk) (dataclose d) (MAX self)) with (@Raise Q ZeroDivisionError);
      [reflexivity | symmetry; apply sizing_raises; auto].
  - rewrite Hnil. reflexivity.
Qed.

(** ** [next]: what one bar can do *)

(** X2. A call of [next] issues at most one order.  On a bar whose low is
    above EMA(high) the order, if any, is a buy, whatever the exit test
    says; on any other bar it is a sell. *)
Theorem one_order_per_bar_entry_first
    (guard : Z -> Z -> bool) (self : Strategy) (d : Lines) (bk : Broker)
    (self' : Strategy) (evs : list Event) :
  next_with guard self d bk = Ok (self', evs) ->
  (length evs <= 1)%nat /\
  (ema_high d < datalow d -> existsb is_sell evs = false) /\
  (datalow d <= ema_high d -> forallb is_sell evs = true).
Proof.
  intros Hnext. apply next_with_inv in Hnext.
  destruct Hnext as [sz Hentry _ _ | last sz Hentry _ _ _ _ _ | oldest rest Hentry _ _ _ | ];
    simpl; repeat split; auto; intros Hcmp; unfold entry_condition in Hentry;
    first [ apply Qlt_bool_iff in Hentry; lra
          | apply Qlt_bool_iff in Hcmp; congruence ].
Qed.

Lemma one_order_per_bar_entry_first_witness :
  (length [BUY_CREATE 10 (100000 / 10 / 5)] <= 1)%nat /\
  (ema_high bar_entry < datalow bar_entry ->
   existsb is_sell [BUY_CREATE 10 (100000 / 10 / 5)] = false) /\
  (datalow bar_entry <= ema_high bar_entry ->
   forallb is_sell [BUY_CREATE 10 (100000 / 10 / 5)] = true).
Proof.
  apply (one_order_per_bar_entry_first Z.ltb (init 5) bar_entry (broker0 100000)
           (record_lot (sample (init 5) 100000) 10)).
  reflexivity.
Defined.

(** X3. A pyramiding add on a bar whose low is not above its close records a
    price strictly above the last price recorded before: within a position
    the last record only rises. *)
Theorem add_records_above_last
    (guard : Z -> Z -> bool) (self : Strategy) (d : Lines) (bk : Broker)
    (self' : Strategy) (evs : list Event) (p sz : Q) :
  next_with guard self d bk = Ok (self', evs) ->
  In (BUY_ADDITIONAL p sz) evs ->
  datalow d <= dataclose d ->
  exists last,
    py_last (open_positions self) = Ok last /\
    py_last (open_positions self') = Ok p /\
    last < p.
Proof.
  intros Hnext Hin Hbar. apply next_with_inv in Hnext.
  destruct Hnext as [sz' _ _ _ | last sz' _ _ _ Hlast Hrise _ | oldest rest _ _ _ _ | ];
    simpl in Hin; try contradiction; destruct Hin as [Heq | []]; try discriminate.
  injection Heq as <- <-. exists last. repeat split.
  - exact Hlast.
  - cbn [record_lot sample open_positions]. apply py_last_app.
  - apply Qlt_bool_iff in Hrise. lra.
Qed.

Lemma add_records_above_last_witness :
  exists last,
    py_last (open_positions (mkStrategy 5 1 [10] [] None)) = Ok last /\
    py_last (open_positions
               (record_lot (sample (mkStrategy 5 1 [10] [] None) (50000 + 5000 * 14)) 14))
      = Ok 14 /\
    last < 14.
Proof.
  apply (add_records_above_last Z.ltb (mkStrategy 5 1 [10] [] None) bar_rise
           (mkBroker 50000 (mkPosition 5000 10))
           (record_lot (sample (mkStrategy 5 1 [10] [] None) (50000 + 5000 * 14)) 14)
           [BUY_ADDITIONAL 14 (50000 / 14 / 5)] 14 (50000 / 14 / 5)).
  - reflexivity.
  - simpl. left. reflexivity.
  - discriminate.
Defined.

(** X4. The two versions of [next] do the same on every input, except when
    a position is open, the low is above EMA(high) and [trade_count] is
    exactly [MAX]. *)
Theorem versions_agree_unless_trade_count_is_max
    (self : Strategy) (d : Lines) (bk : Broker) :
  trade_count self <> MAX self \/ state_of bk = FLAT \/ datalow d <= ema_high d ->
  Fixed5.next self d bk = next self d bk.
Proof.
  intros Hcase. unfold Fixed5.next, next, next_with.
  cbn [sample trade_count MAX].
  destruct Hcase as [Hne | [Hflat | Hlow]].
  - replace (trade_count self <=? MAX self)%Z with (trade_count self <? MAX self)%Z;
      [reflexivity|].
    destruct (Z.ltb_spec (trade_count self) (MAX self)),
             (Z.leb_spec (trade_count self) (MAX self)); try reflexivity; lia.
  - apply position_bool_state in Hflat. rewrite Hflat. reflexivity.
  - replace (entry_condition d) with false; [reflexivity|].
    symmetry. unfold entry_condition.
    destruct (Qlt_bool (ema_high d) (datalow d)) eqn:E; [|reflexivity].
    apply Qlt_bool_iff in E. lra.
Qed.

Lemma versions_agree_unless_trade_count_is_max_witness :
  Fixed5.next (mkStrategy 5 1 [10] [] None) bar_rise (mkBroker 50000 (mkPosition 5000 10))
  = next (mkStrategy 5 1 [10] [] None) bar_rise (mkBroker 50000 (mkPosition 5000 10)).
Proof.
  apply (versions_agree_unless_trade_count_is_max (mkStrategy 5 1 [10] [] None) bar_rise
           (mkBroker 50000 (mkPosition 5000 10))).
  left. discriminate.
Defined.

(** ** The bar loop: what a run keeps *)

Lemma next_with_effects (guard : Z -> Z -> bool) (self : Strategy) (d : Lines) (bk : Broker)
    (self' : Strategy) (evs : list Event) :
  next_with guard self d bk = Ok (self', evs) ->
  equity_curve self' = equity_curve self ++ [getvalue bk d] /\
  (Z.of_nat (length (open_positions self'))
   = Z.of_nat (length (open_positions self))
     + count is_entry evs + count is_add evs - count is_sell evs)%Z.
Proof.
  intros Hnext. apply next_with_inv in Hnext.
  destruct Hnext as [sz _ _ _ | last sz _ _ _ _ _ _ | oldest rest _ _ _ Hops | ];
    cbn [record_lot drop_lot sample equity_curve open_positions]; split; try reflexivity;
    unfold count; cbn [filter is_entry is_add is_sell];
    rewrite ?length_app, ?Hops; cbn [length]; lia.
Qed.

(** X5. Over a run that returns, whatever the broker shows, the equity curve
    gains exactly one sample per bar, the broker value read on that bar, in
    the order of the bars. *)
Theorem equity_curve_samples_every_bar
    (guard : Z -> Z -> bool) (shown : list (Lines * Broker))
    (self self' : Strategy) (trace : list Event) :
  drive (next_with guard) self shown = Ok (self', trace) ->
  equity_curve self'
  = equity_curve self ++ map (fun shown_bar => getvalue (snd shown_bar) (fst shown_bar)) shown.
Proof.
  revert self self' trace.
  induction shown as [|[d bk] shown IH]; intros self self' trace Hrun; simpl in Hrun.
  - injection Hrun as <- <-. simpl. symmetry. apply app_nil_r.
  - destruct (next_with guard self d bk) as [[s1 evs]|e] eqn:Hnext; simpl in Hrun; [|discriminate].
    destruct (drive (next_with guard) s1 shown) as [[s2 t2]|e] eqn:Hrest;
      simpl in Hrun; [|discriminate].
    injection Hrun as <- <-.
    apply next_with_effects in Hnext as [Hcurve _].
    rewrite (IH _ _ _ Hrest), Hcurve, <- app_assoc. reflexivity.
Qed.

Lemma equity_curve_samples_every_bar_witness :
  exists self' trace,
    drive next (init 5) [(bar_entry, broker0 1000); (bar_rise, mkBroker 800 (mkPosition 20 10))]
      = Ok (self', trace) /\
    equity_curve self'
    = equity_curve (init 5)
      ++ map (fun shown_bar => getvalue (snd shown_bar) (fst shown_bar))
             [(bar_entry, broker0 1000); (bar_rise, mkBroker 800 (mkPosition 20 10))].
Proof.
  do 2 eexists. split.
  - vm_compute. reflexivity.
  - eapply (equity_curve_samples_every_bar Z.ltb
              [(bar_entry, broker0 1000); (bar_rise, mkBroker 800 (mkPosition 20 10))]).
    vm_compute. reflexivity.
Defined.

(** X6. Over a run that returns, the number of lot records changes by the
    number of buys minus the number of sells: every buy appends one record
    and every sell removes one, however large the position sold. *)
Theorem lot_records_follow_the_orders
    (guard : Z -> Z -> bool) (shown : list (Lines * Broker))
    (self self' : Strategy) (trace : list Event) :
  drive (next_with guard) self shown = Ok (self', trace) ->
  (Z.of_nat (length (open_positions self'))
   = Z.of_nat (length (open_positions self))
     + count is_entry trace + count is_add trace - count is_sell trace)%Z.
Proof.
  revert self self' trace.
  induction shown as [|[d bk] shown IH]; intros self self' trace Hrun; simpl in Hrun.
  - injection Hrun as <- <-. unfold count. simpl. lia.
  - destruct (next_with guard self d bk) as [[s1 evs]|e] eqn:Hnext; simpl in Hrun; [|discriminate].
    destruct (drive (next_with guard) s1 shown) as [[s2 t2]|e] eqn:Hrest;
      simpl in Hrun; [|discriminate].
    injection Hrun as <- <-.
    apply next_with_effects in Hnext as [_ Hlots].
    apply IH in Hrest. rewrite !count_app. lia.
Qed.

Lemma lot_records_follow_the_orders_witness :
  exists self' trace,
    drive next (init 5)
          [ (bar_entry, broker0 1000); (bar_rise, mkBroker 800 (mkPosition 20 10));
            (bar_exit, mkBroker 600 (mkPosition 30 11)) ] = Ok (self', trace) /\
    (Z.of_nat (length (open_positions self'))
     = Z.of_nat (length (open_positions (init 5)))
       + count is_entry trace + count is_add trace - count is_sell trace)%Z.
Proof.
  do 2 eexists. split.
  - vm_compute. reflexivity.
  - eapply (lot_records_follow_the_orders Z.ltb
              [ (bar_entry, broker0 1000); (bar_rise, mkBroker 800 (mkPosition 20 10));
                (bar_exit, mkBroker 600 (mkPosition 30 11)) ]).
    vm_compute. reflexivity.
Defined.

(** ** The bar loop: no pop from an empty list *)

Section ClosingSell.

Variable guard : Z -> Z -> bool.
Variable fill : Broker -> Lines -> Event -> Broker.

(** The sell of the whole position leaves no position. *)
Hypothesis sell_all_closes :
  forall (bk : Broker) (d : Lines) (p : Q),
    state_of (fill bk d (SELL_CREATE p (size (position bk)))) = FLAT.

Lemma step_keeps_lots_behind_position
    (self : Strategy) (d : Lines) (bk : Broker) (self' : Strategy) (evs : list Event) :
  (state_of bk = LONG -> open_positions self <> []) ->
  next_with guard self d bk = Ok (self', evs) ->
  state_of (fold_left (fun b e => fill b d e) evs bk) = LONG ->
  open_positions self' <> [].
Proof.
  intros Hlots Hnext. apply next_with_inv in Hnext.
  destruct Hnext as [sz _ _ _ | last sz _ _ _ _ _ _ | oldest rest _ _ _ _ | ];
    cbn [fold_left record_lot drop_lot sample open_positions].
  - intros _ H. apply app_eq_nil in H as [_ H]. discriminate.
  - intros _ H. apply app_eq_nil in H as [_ H]. discriminate.
  - rewrite sell_all_closes. discriminate.
  - exact Hlots.
Qed.

Lemma run_raises_only_zero_division (feed : list Lines) :
  forall (self : Strategy) (bk : Broker) (e : exn),
  (state_of bk = LONG -> open_positions self <> []) ->
  run (next_with guard) fill self bk feed = Raise e ->
  e = ZeroDivisionError.
Proof.
  induction feed as [|d feed IH]; intros self bk e Hlots Hrun; simpl in Hrun; [discriminate|].
  destruct (next_with guard self d bk) as [[s1 evs]|e1] eqn:Hnext; simpl in Hrun.
  - destruct (run (next_with guard) fill s1 _ feed) as [[[s2 b2] t2]|e2] eqn:Hrest;
      simpl in Hrun; [discriminate|].
    injection Hrun as <-.
    eapply IH; [|exact Hrest].
    eapply step_keeps_lots_behind_position; eassumption.
  - injection Hrun as <-.
    apply next_with_raise_inv in Hnext
      as [(_ & _ & -> & _) | [(_ & Hlong & _ & _ & Hnil)
         | [(_ & _ & _ & -> & _) | (_ & _ & Hlong & _ & Hnil)]]];
      try reflexivity; exfalso; apply (Hlots Hlong Hnil).
Qed.

End ClosingSell.

(** X7. With a broker whose fill of a sell of the whole position leaves no
    position, a run that starts with a lot record behind any open position
    never raises [IndexError]: a position is open only after a buy, which
    recorded a lot, and a sell closes it.  The only exception such a run can
    raise is [ZeroDivisionError] (both versions of [next]). *)
Theorem closing_sells_never_pop_an_empty_list
    (guard : Z -> Z -> bool) (fill : Broker -> Lines -> Event -> Broker)
    (feed : list Lines) (self : Strategy) (bk : Broker) (e : exn) :
  (forall (b : Broker) (d : Lines) (p : Q),
     state_of (fill b d (SELL_CREATE p (size (position b)))) = FLAT) ->
  (state_of bk = LONG -> open_positions self <> []) ->
  run (next_with guard) fill self bk feed = Raise e ->
  e = ZeroDivisionError.
Proof.
  intros Hsell Hlots Hrun.
  exact (run_raises_only_zero_division guard fill Hsell feed self bk e Hlots Hrun).
Qed.

Lemma closing_sells_never_pop_an_empty_list_witness :
  run next (ledger_fill commission) (init 0) (broker0 1000) [bar_exit; bar_entry]
    = Raise ZeroDivisionError /\
  ZeroDivisionError = ZeroDivisionError.
Proof.
  split; [reflexivity|].
  apply (closing_sells_never_pop_an_empty_list Z.ltb (ledger_fill commission)
           [bar_exit; bar_entry] (init 0) (broker0 1000) ZeroDivisionError).
  - intros b d p. unfold state_of. rewrite ledger_fill_sell_all. reflexivity.
  - discriminate.
  - reflexivity.
Defined.

(** ** [stop]: the maximum drawdown as the largest decline from a peak *)

Lemma stop_value (self : Strategy) (first : Q) (rest : list Q) :
  equity_curve self = first :: rest ->
  exists self',
    stop self = Ok self' /\
    max_drawdown self'
    = Some (series_min (map (Finalize.drawdown (first :: rest))
                            (seq 0 (length (first :: rest)))) * 100).
Proof.
  intros Hcurve. unfold stop. rewrite Hcurve. cbn [iloc0 bind].
  eexists. split; [reflexivity|]. cbn [max_drawdown].
  rewrite drawdown_series_by_index. reflexivity.
Qed.

Lemma Qmin_cases (a b : Q) : Qmin a b = a \/ Qmin a b = b.
Proof.
  unfold Qmin, GenericMinMax.gmin. destruct (a ?= b); auto.
Qed.

Lemma Qmax_cases (a b : Q) : Qmax a b = a \/ Qmax a b = b.
Proof.
  unfold Qmax, GenericMinMax.gmax. destruct (a ?= b); auto.
Qed.

Lemma fold_left_Qmin_le (s : list Q) :
  forall a : Q, fold_left Qmin s a <= a /\ forall x, In x s -> fold_left Qmin s a <= x.
Proof.
  induction s as [|y s IH]; intros a; simpl.
  - split; [apply Qle_refl | intros x []].
  - destruct (IH (Qmin a y)) as [Hacc Hin]. split.
    + apply Qle_trans with (Qmin a y); [exact Hacc | apply Q.le_min_l].
    + intros x [<- | Hx].
      * apply Qle_trans with (Qmin a y); [exact Hacc | apply Q.le_min_r].
      * apply Hin, Hx.
Qed.

Lemma fold_left_Qmin_in (s : list Q) :
  forall a : Q, fold_left Qmin s a = a \/ In (fold_left Qmin s a) s.
Proof.
  induction s as [|y s IH]; intros a; simpl; [left; reflexivity|].
  destruct (IH (Qmin a y)) as [H | H]; [|right; right; exact H].
  rewrite H. destruct (Qmin_cases a y) as [-> | ->]; [left; reflexivity | right; left; reflexivity].
Qed.

(** The minimum of a series that is not empty is one of its terms and is at
    or under each of them. *)
Lemma series_min_is_least (s : list Q) :
  s <> [] -> In (series_min s) s /\ forall x, In x s -> series_min s <= x.
Proof.
  destruct s as [|a s]; [contradiction|]. intros _. cbn [series_min].
  destruct (fold_left_Qmin_le s a) as [Hacc Hin]. split.
  - destruct (fold_left_Qmin_in s a) as [-> | H]; [left; reflexivity | right; exact H].
  - intros x [<- | Hx]; [exact Hacc | apply Hin, Hx].
Qed.

Lemma fold_left_Qmax_ge (g : nat -> Q) (l : list nat) :
  forall a : Q,
  a <= fold_left (fun m j => Qmax m (g j)) l a /\
  forall j, In j l -> g j <= fold_left (fun m j => Qmax m (g j)) l a.
Proof.
  induction l as [|k l IH]; intros a; simpl.
  - split; [apply Qle_refl | intros j []].
  - destruct (IH (Qmax a (g k))) as [Hacc Hin]. split.
    + apply Qle_trans with (Qmax a (g k)); [apply Q.le_max_l | exact Hacc].
    + intros j [<- | Hj].
      * apply Qle_trans with (Qmax a (g k)); [apply Q.le_max_r | exact Hacc].
      * apply Hin, Hj.
Qed.

Lemma fold_left_Qmax_in (g : nat -> Q) (l : list nat) :
  forall a : Q,
  fold_left (fun m j => Qmax m (g j)) l a = a \/
  exists j, In j l /\ fold_left (fun m j => Qmax m (g j)) l a = g j.
Proof.
  induction l as [|k l IH]; intros a; simpl; [left; reflexivity|].
  destruct (IH (Qmax a (g k))) as [H | (j & Hj & H)].
  - rewrite H. destruct (Qmax_cases a (g k)) as [-> | ->]; [left; reflexivity|].
    right. exists k. split; [left; reflexivity | reflexivity].
  - right. exists j. split; [right; exact Hj | exact H].
Qed.

(** The peak at index [i] is a normalized sample at or before [i], and no
    normalized sample at or before [i] is above it. *)
Lemma peak_is_running_max (curve : list Q) (i : nat) :
  (forall j, (j <= i)%nat -> Finalize.normalized curve j <= Finalize.peak curve i) /\
  exists j, (j <= i)%nat /\ Finalize.peak curve i = Finalize.normalized curve j.
Proof.
  unfold Finalize.peak.
  destruct (fold_left_Qmax_ge (Finalize.normalized curve) (seq 1 i) (Finalize.normalized curve 0))
    as [Hacc Hin].
  split.
  - intros j Hj. destruct j as [|j]; [exact Hacc|].
    apply Hin, in_seq. lia.
  - destruct (fold_left_Qmax_in (Finalize.normalized curve) (seq 1 i)
                                (Finalize.normalized curve 0)) as [H | (j & Hj & H)].
    + exists 0%nat. split; [lia | exact H].
    + exists j. apply in_seq in Hj. split; [lia | exact H].
Qed.

Lemma nth_positive (curve : list Q) (i : nat) :
  Forall (fun v => 0 < v) curve -> (i < length curve)%nat -> 0 < nth i curve 0.
Proof.
  intros Hpos Hi. rewrite Forall_forall in Hpos. apply Hpos, nth_In, Hi.
Qed.

Lemma normalized_positive (curve : list Q) (i : nat) :
  Forall (fun v => 0 < v) curve -> (i < length curve)%nat ->
  0 < Finalize.normalized curve i.
Proof.
  intros Hpos Hi. unfold Finalize.normalized.
  apply Qdiv_pos; apply nth_positive; try assumption; lia.
Qed.

(** The decline from sample [j] to sample [i], in percent. *)
Lemma decline_of_normalized (curve : list Q) (i j : nat) :
  Forall (fun v => 0 < v) curve -> (i < length curve)%nat -> (j < length curve)%nat ->
  (Finalize.normalized curve i - Finalize.normalized curve j) / Finalize.normalized curve j
  == (nth i curve 0 - nth j curve 0) / nth j curve 0.
Proof.
  intros Hpos Hi Hj. unfold Finalize.normalized.
  assert (H0 : 0 < nth 0 curve 0) by (apply nth_positive; [assumption | lia]).
  assert (Hxj : 0 < nth j curve 0) by (apply nth_positive; assumption).
  field. split; lra.
Qed.

Lemma decline_from_higher_peak (a p q : Q) :
  0 < a -> 0 < q -> q <= p -> (a - p) / p <= (a - q) / q.
Proof.
  intros Ha Hq Hqp. assert (Hp : 0 < p) by lra.
  apply Qle_shift_div_l; [exact Hq|].
  setoid_replace ((a - p) / p * q) with ((a * q - p * q) / p) by (field; lra).
  apply Qle_shift_div_r; [exact Hp|]. nra.
Qed.

Lemma sorted_of_steps (l : list Q) :
  (forall i, (S i < length l)%nat -> nth i l 0 <= nth (S i) l 0) -> Sorted Qle l.
Proof.
  induction l as [|x l IH]; intros Hstep; constructor.
  - apply IH. intros i Hi. apply (Hstep (S i)). simpl. lia.
  - destruct l as [|y l]; constructor. apply (Hstep 0%nat). simpl. lia.
Qed.

(** The minimum of the drawdown terms is the least decline over all pairs of
    an earlier and a later (or the same) sample. *)
Lemma least_drawdown_over_pairs (curve : list Q) :
  curve <> [] ->
  Forall (fun v => 0 < v) curve ->
  let least := series_min (map (Finalize.drawdown curve) (seq 0 (length curve))) in
  (forall i j, (j <= i < length curve)%nat ->
     least <= (nth i curve 0 - nth j curve 0) / nth j curve 0) /\
  (exists i j, (j <= i < length curve)%nat /\
     least == (nth i curve 0 - nth j curve 0) / nth j curve 0).
Proof.
  intros Hne Hpos least.
  assert (Hterms : map (Finalize.drawdown curve) (seq 0 (length curve)) <> []).
  { destruct curve; [contradiction | discriminate]. }
  destruct (series_min_is_least _ Hterms) as [Hin Hleast]. fold least in Hin, Hleast.
  split.
  - intros i j [Hji Hi].
    apply Qle_trans with (Finalize.drawdown curve i).
    + apply Hleast, in_map, in_seq. lia.
    + rewrite <- (decline_of_normalized curve i j Hpos Hi) by lia.
      unfold Finalize.drawdown.
      apply decline_from_higher_peak.
      * apply normalized_positive; assumption.
      * apply normalized_positive; [assumption | lia].
      * apply (proj1 (peak_is_running_max curve i)), Hji.
  - apply in_map_iff in Hin as (i & Hi & Hrange). apply in_seq in Hrange.
    destruct (proj2 (peak_is_running_max curve i)) as (j & Hji & Hpeak).
    exists i, j. split; [lia|].
    rewrite <- Hi. unfold Finalize.drawdown. rewrite Hpeak.
    apply decline_of_normalized; [assumption | lia | lia].
Qed.

(** X8. For an equity curve of positive samples the maximum drawdown that
    [stop] stores is the largest decline from an earlier sample to a later
    one: it is at or under [(x_i - x_j) / x_j * 100] for every pair of
    indices [j <= i], and equal to it for one such pair. *)
Theorem max_drawdown_is_largest_decline (self : Strategy) :
  equity_curve self <> [] ->
  Forall (fun v => 0 < v) (equity_curve self) ->
  exists self' m,
    stop self = Ok self' /\
    max_drawdown self' = Some m /\
    (forall i j, (j <= i < length (equity_curve self))%nat ->
       m <= (nth i (equity_curve self) 0 - nth j (equity_curve self) 0)
            / nth j (equity_curve self) 0 * 100) /\
    (exists i j, (j <= i < length (equity_curve self))%nat /\
       m == (nth i (equity_curve self) 0 - nth j (equity_curve self) 0)
            / nth j (equity_curve self) 0 * 100).
Proof.
  intros Hne Hpos.
  destruct (equity_curve self) as [|first rest] eqn:Hcurve; [contradiction|].
  destruct (stop_value self first rest Hcurve) as (self' & Hstop & Hmdd).
  destruct (least_drawdown_over_pairs (first :: rest) Hne Hpos) as [Hall (i & j & Hij & Hat)].
  do 2 eexists. split; [exact Hstop|]. split; [exact Hmdd|]. split.
  - intros i' j' Hij'. specialize (Hall i' j' Hij'). lra.
  - exists i, j. split; [exact Hij|]. rewrite Hat. reflexivity.
Qed.

Lemma max_drawdown_is_largest_decline_witness :
  exists self' m,
    stop (mkStrategy 5 0 [] [100; 120; 90; 130; 65] None) = Ok self' /\
    max_drawdown self' = Some m /\
    (forall i j, (j <= i < 5)%nat ->
       m <= (nth i [100; 120; 90; 130; 65] 0 - nth j [100; 120; 90; 130; 65] 0)
            / nth j [100; 120; 90; 130; 65] 0 * 100) /\
    (exists i j, (j <= i < 5)%nat /\
       m == (nth i [100; 120; 90; 130; 65] 0 - nth j [100; 120; 90; 130; 65] 0)
            / nth j [100; 120; 90; 130; 65] 0 * 100).
Proof.
  apply (max_drawdown_is_largest_decline (mkStrategy 5 0 [] [100; 120; 90; 130; 65] None)).
  - discriminate.
  - simpl. repeat constructor.
Defined.

(** X9. For an equity curve of positive samples the maximum drawdown is
    strictly above -100, and it is 0 only if the curve never decreases. *)
Theorem max_drawdown_above_minus_100_zero_only_if_rising (self : Strategy) :
  equity_curve self <> [] ->
  Forall (fun v => 0 < v) (equity_curve self) ->
  exists self' m,
    stop self = Ok self' /\
    max_drawdown self' = Some m /\
    -(100) < m /\
    (m == 0 -> Sorted Qle (equity_curve self)).
Proof.
  intros Hne Hpos.
  destruct (equity_curve self) as [|first rest] eqn:Hcurve; [contradiction|].
  destruct (stop_value self first rest Hcurve) as (self' & Hstop & Hmdd).
  destruct (least_drawdown_over_pairs (first :: rest) Hne Hpos) as [Hall (i & j & Hij & Hat)].
  do 2 eexists. split; [exact Hstop|]. split; [exact Hmdd|]. split.
  - rewrite Hat.
    assert (Hxi : 0 < nth i (first :: rest) 0) by (apply nth_positive; [assumption | lia]).
    assert (Hxj : 0 < nth j (first :: rest) 0) by (apply nth_positive; [assumption | lia]).
    assert (-(1) < (nth i (first :: rest) 0 - nth j (first :: rest) 0) / nth j (first :: rest) 0).
    { apply Qlt_shift_div_l; [exact Hxj | lra]. }
    lra.
  - intros Hzero. apply sorted_of_steps. intros i' Hi'.
    specialize (Hall (S i') i' (conj (Nat.le_succ_diag_r i') Hi')).
    assert (Hx : 0 < nth i' (first :: rest) 0) by (apply nth_positive; [assumption | lia]).
    assert (Hdecl : 0 <= (nth (S i') (first :: rest) 0 - nth i' (first :: rest) 0)
                         / nth i' (first :: rest) 0) by lra.
    apply (Qmult_le_compat_r _ _ (nth i' (first :: rest) 0)) in Hdecl; [|lra].
    setoid_replace ((nth (S i') (first :: rest) 0 - nth i' (first :: rest) 0)
                    / nth i' (first :: rest) 0 * nth i' (first :: rest) 0)
      with (nth (S i') (first :: rest) 0 - nth i' (first :: rest) 0) in Hdecl
      by (field; lra).
    lra.
Qed.

Lemma max_drawdown_above_minus_100_zero_only_if_rising_witness :
  exists self' m,
    stop (mkStrategy 5 0 [] [100; 120; 90; 130; 65] None) = Ok self' /\
    max_drawdown self' = Some m /\
    -(100) < m /\
    (m == 0 -> Sorted Qle [100; 120; 90; 130; 65]).
Proof.
  apply (max_drawdown_above_minus_100_zero_only_if_rising
           (mkStrategy 5 0 [] [100; 120; 90; 130; 65] None)).
  - discriminate.
  - simpl. repeat constructor.
Defined.

Lemma nth_scaled (k : Q) (l : list Q) (i : nat) :
  (i < length l)%nat -> nth i (map (Qmult k) l) 0 = k * nth i l 0.
Proof.
  intros Hi. rewrite (nth_indep _ 0 (k * 0)) by (rewrite length_map; exact Hi).
  apply map_nth.
Qed.

Lemma decline_scaled (k x y : Q) :
  0 < k -> 0 < y -> (k * x - k * y) / (k * y) == (x - y) / y.
Proof.
  intros Hk Hy. field. split; lra.
Qed.

(** X10. The maximum drawdown does not depend on the scale of the equity:
    multiplying every sample of a positive curve by the same positive factor
    (a larger or smaller starting cash) gives the same value. *)
Theorem max_drawdown_is_scale_invariant (self scaled : Strategy) (k : Q) :
  0 < k ->
  equity_curve self <> [] ->
  Forall (fun v => 0 < v) (equity_curve self) ->
  equity_curve scaled = map (Qmult k) (equity_curve self) ->
  exists self' scaled' m m',
    stop self = Ok self' /\ max_drawdown self' = Some m /\
    stop scaled = Ok scaled' /\ max_drawdown scaled' = Some m' /\
    m == m'.
Proof.
  intros Hk Hne Hpos Hscaled.
  set (curve := equity_curve self) in *.
  assert (Hne' : map (Qmult k) curve <> []).
  { destruct curve; [contradiction | discriminate]. }
  assert (Hpos' : Forall (fun v => 0 < v) (map (Qmult k) curve)).
  { apply Forall_map. eapply Forall_impl; [|exact Hpos]. simpl. intros v Hv. nra. }
  destruct curve as [|first rest] eqn:Hcurve; [contradiction|].
  destruct (stop_value self first rest Hcurve) as (self' & Hstop & Hmdd).
  destruct (stop_value scaled (k * first) (map (Qmult k) rest) Hscaled)
    as (scaled' & Hstop' & Hmdd').
  change (k * first :: map (Qmult k) rest) with (map (Qmult k) (first :: rest)) in Hmdd'.
  destruct (least_drawdown_over_pairs (first :: rest) Hne Hpos)
    as [Hall (i & j & Hij & Hat)].
  destruct (least_drawdown_over_pairs (map (Qmult k) (first :: rest)) Hne' Hpos')
    as [Hall' (i' & j' & Hij' & Hat')].
  assert (Hlen : length (map (Qmult k) (first :: rest)) = length (first :: rest))
    by apply length_map.
  rewrite Hlen in Hij'.
  assert (Hdecl : forall a b, (b <= a < length (first :: rest))%nat ->
            (nth a (map (Qmult k) (first :: rest)) 0 - nth b (map (Qmult k) (first :: rest)) 0)
            / nth b (map (Qmult k) (first :: rest)) 0
            == (nth a (first :: rest) 0 - nth b (first :: rest) 0) / nth b (first :: rest) 0).
  { intros a b Hab. rewrite !nth_scaled by lia.
    apply decline_scaled; [exact Hk | apply nth_positive; [assumption | lia]]. }
  exists self', scaled'. do 2 eexists.
  split; [exact Hstop|]. split; [exact Hmdd|]. split; [exact Hstop'|]. split; [exact Hmdd'|].
  pose proof (Hall i' j' Hij') as H1. rewrite <- (Hdecl i' j' Hij'), <- Hat' in H1.
  assert (Hij2 : (j <= i < length (map (Qmult k) (first :: rest)))%nat)
    by (rewrite Hlen; exact Hij).
  pose proof (Hall' i j Hij2) as H2. rewrite (Hdecl i j Hij), <- Hat in H2.
  lra.
Qed.

Lemma max_drawdown_is_scale_invariant_witness :
  exists self' scaled' m m',
    stop (mkStrategy 5 0 [] [100; 120; 90] None) = Ok self' /\
    max_drawdown self' = Some m /\
    stop (mkStrategy 5 0 [] (map (Qmult 3) [100; 120; 90]) None) = Ok scaled' /\
    max_drawdown scaled' = Some m' /\
    m == m'.
Proof.
  apply (max_drawdown_is_scale_invariant
           (mkStrategy 5 0 [] [100; 120; 90] None)
           (mkStrategy 5 0 [] (map (Qmult 3) [100; 120; 90]) None) 3).
  - reflexivity.
  - discriminate.
  - simpl. repeat constructor.
  - reflexivity.
Defined.

(** ** The driver: when no row is produced *)

(** X11. A backtest with either version of [next] produces no row in three
    cases only: the feed is empty, and [stop] raises [IndexError] on the
    empty equity curve; the bar loop raised, and the exception is passed on;
    the initial cash is zero, and the realised profit raises
    [ZeroDivisionError]. *)
Theorem backtest_raises_iff
    (guard : Z -> Z -> bool) (fill : Broker -> Lines -> Event -> Broker)
    (max : Z) (initial_value : Q) (feed : list Lines) (e : exn) :
  backtest (next_with guard) fill (init max) initial_value feed = Raise e <->
  (feed = [] /\ e = IndexError) \/
  run (next_with guard) fill (init max) (broker0 initial_value) feed = Raise e \/
  (feed <> [] /\
   (exists r, run (next_with guard) fill (init max) (broker0 initial_value) feed = Ok r) /\
   initial_value == 0 /\ e = ZeroDivisionError).
Proof.
  unfold backtest.
  change {| getcash := initial_value; position := {| size := 0; price := 0 |} |}
    with (broker0 initial_value).
  destruct feed as [|d feed].
  - cbn. split.
    + intros [= <-]. left. auto.
    + intros [[_ ->] | [H | (H & _)]]; [reflexivity | discriminate | contradiction].
  - destruct (run (next_with guard) fill (init max) (broker0 initial_value) (d :: feed))
      as [[[self bk] trace]|e'] eqn:Hrun; cbn [bind fst snd].
    + pose proof (run_samples_equity _ _ _ _ _ _ _ _ Hrun) as Hlen.
      unfold stop. destruct (equity_curve self) as [|first rest] eqn:Hcurve;
        [simpl in Hlen; lia|].
      cbn [iloc0 bind open_positions trade_count].
      destruct (py_last_nonempty (map dataclose (d :: feed))) as [c Hc]; [discriminate|].
      unfold last_close. rewrite Hc. cbn [bind].
      unfold py_div. destruct (Qeq_bool initial_value 0) eqn:Hcash; cbn [bind].
      * apply Qeq_bool_iff in Hcash. split.
        -- intros [= <-]. right. right. repeat split; try discriminate; eauto.
        -- intros [[H _] | [H | (_ & _ & _ & ->)]]; [discriminate | discriminate | reflexivity].
      * apply Qeq_bool_false_iff in Hcash. split; [discriminate|].
        intros [[H _] | [H | (_ & _ & H & _)]]; [discriminate | discriminate | contradiction].
    + split.
      * intros [= <-]. right. left. reflexivity.
      * intros [[H _] | [[= <-] | (_ & (r & H) & _)]]; [discriminate | reflexivity | discriminate].
Qed.

(** ** The driver: a feed that never trades *)

Lemma stop_of_level_curve (self : Strategy) :
  equity_curve self <> [] ->
  Forall (fun v => 0 < v) (equity_curve self) ->
  Sorted Qle (equity_curve self) ->
  exists self' m,
    stop self = Ok self' /\ max_drawdown self' = Some m /\ m == 0 /\
    open_positions self' = open_positions self /\ trade_count self' = trade_count self.
Proof.
  intros Hne Hpos Hsorted.
  destruct (equity_curve self) as [|first rest] eqn:Hcurve; [contradiction|].
  assert (Hfirst : 0 < first) by (inversion Hpos; assumption).
  unfold stop. rewrite Hcurve. cbn [iloc0 bind].
  do 2 eexists. split; [reflexivity|]. split; [reflexivity|].
  split; [|split; reflexivity].
  unfold drawdown_series.
  set (c := series_div_scalar (first :: rest) first).
  destruct (series_min_range 0 0 (series_div (series_sub c (cummax c)) (cummax c)))
    as [Hlo Hhi]; [lra | lra | | lra].
  apply drawdown_terms_zero; [apply series_div_scalar_pos; assumption|].
  apply cummax_sorted, series_div_scalar_sorted; assumption.
Qed.

(** On bars that never meet the entry condition a flat strategy only samples
    the broker value. *)
Lemma run_of_quiet_feed (guard : Z -> Z -> bool)
    (fill : Broker -> Lines -> Event -> Broker) (cash : Q) (feed : list Lines) :
  forall self : Strategy,
  Forall (fun d => datalow d <= ema_high d) feed ->
  run (next_with guard) fill self (broker0 cash) feed
  = Ok ({| MAX := MAX self;
           trade_count := trade_count self;
           open_positions := open_positions self;
           equity_curve := equity_curve self ++ map (getvalue (broker0 cash)) feed;
           max_drawdown := max_drawdown self |},
        broker0 cash, []).
Proof.
  induction feed as [|d feed IH]; intros self Hquiet.
  - simpl. rewrite app_nil_r. destruct self; reflexivity.
  - inversion Hquiet as [|? ? Hd Hfeed]; subst.
    assert (Hentry : entry_condition d = false).
    { unfold entry_condition. destruct (Qlt_bool (ema_high d) (datalow d)) eqn:E; [|reflexivity].
      apply Qlt_bool_iff in E. lra. }
    cbn [run]. unfold next_with at 1. rewrite Hentry.
    replace (position_bool (position (broker0 cash))) with false by reflexivity.
    replace (if exit_condition d (broker0 cash)
             then Ok (sample self (getvalue (broker0 cash) d), [])
             else Ok (sample self (getvalue (broker0 cash) d), []))
      with (@Ok (Strategy * list Event) (sample self (getvalue (broker0 cash) d), []))
      by (destruct (exit_condition d (broker0 cash)); reflexivity).
    cbn [bind fst snd fold_left]. rewrite (IH _ Hfeed).
    cbn [bind fst snd sample MAX trade_count open_positions equity_curve max_drawdown app map].
    rewrite <- app_assoc. reflexivity.
Qed.

(** X12. When no bar of a feed that is not empty has its low above
    EMA(high), a backtest from a positive cash produces its row with no
    trade, no realised and no unrealised profit and no drawdown, whatever
    the broker would do with an order (both versions of [next]). *)
Theorem quiet_feed_reports_zeros
    (guard : Z -> Z -> bool) (fill : Broker -> Lines -> Event -> Broker)
    (max : Z) (initial_value : Q) (feed : list Lines) :
  0 < initial_value ->
  feed <> [] ->
  Forall (fun d => datalow d <= ema_high d) feed ->
  exists row,
    backtest (next_with guard) fill (init max) initial_value feed = Ok row /\
    Trades row = 0%Z /\
    realized_profit_percent row == 0 /\
    unrealized_profit_percent row == 0 /\
    Max_Drawdown row == 0.
Proof.
  intros Hcash Hne Hquiet. unfold backtest.
  change {| getcash := initial_value; position := {| size := 0; price := 0 |} |}
    with (broker0 initial_value).
  rewrite (run_of_quiet_feed guard fill initial_value feed (init max) Hquiet).
  cbn [bind fst snd init MAX trade_count open_positions equity_curve max_drawdown app].
  set (quiet := {| MAX := max; trade_count := 0; open_positions := [];
                   equity_curve := map (getvalue (broker0 initial_value)) feed;
                   max_drawdown := None |}).
  destruct (stop_of_level_curve quiet) as (self' & m & Hstop & Hmdd & Hm & Hlots & Htc).
  - destruct feed; [contradiction | discriminate].
  - apply Forall_map. apply Forall_forall. intros d _. unfold getvalue. simpl. lra.
  - cbn [quiet equity_curve]. clear. induction feed as [|d feed IH]; [constructor|].
    cbn [map]. constructor; [exact IH|].
    destruct feed as [|d' feed]; constructor. unfold getvalue. simpl. lra.
  - rewrite Hstop. cbn [bind].
    destruct (py_last_nonempty (map dataclose feed)) as [c Hc].
    { destruct feed; [contradiction | discriminate]. }
    unfold last_close. rewrite Hc. cbn [bind].
    rewrite py_div_ok by lra. cbn [bind].
    eexists. split; [reflexivity|].
    cbn [Trades realized_profit_percent unrealized_profit_percent Max_Drawdown].
    rewrite Hlots, Htc. unfold getattr_max_drawdown. rewrite Hmdd.
    split; [reflexivity|]. split; [|split; [reflexivity | exact Hm]].
    simpl. field. lra.
Qed.

Lemma quiet_feed_reports_zeros_witness :
  exists row,
    backtest next (ledger_fill commission) (init 5) 100000 [bar_exit; bar_exit] = Ok row /\
    Trades row = 0%Z /\
    realized_profit_percent row == 0 /\
    unrealized_profit_percent row == 0 /\
    Max_Drawdown row == 0.
Proof.
  apply (quiet_feed_reports_zeros Z.ltb (ledger_fill commission) 5 100000 [bar_exit; bar_exit]).
  - reflexivity.
  - discriminate.
  - repeat constructor; discriminate.
Defined.

(** ** The unrealised profit: its sign *)

(** X13. When the last close is at or above every recorded entry price the
    unrealised profit percent is not negative, and when it is at or below
    every one of them it is not positive (entry prices positive). *)
Theorem unrealized_profit_sign (current_price : Q) (lots : list Q) :
  Forall (fun entry_price => 0 < entry_price) lots ->
  (Forall (fun entry_price => entry_price <= current_price) lots ->
   0 <= unrealized_profit current_price lots) /\
  (Forall (fun entry_price => current_price <= entry_price) lots ->
   unrealized_profit current_price lots <= 0).
Proof.
  intros Hpos. unfold unrealized_profit.
  assert (Hsum : fold_left Qplus
                   (map (fun entry_price => (current_price - entry_price) / entry_price * 100)
                        lots) 0
                 == sum_of_lot_percents current_price lots).
  { rewrite fold_left_Qplus_lot_percents. ring. }
  rewrite Hsum. clear Hsum.
  induction Hpos as [|e lots He _ IH]; simpl.
  - split; intros _; apply Qle_refl.
  - destruct IH as [IHup IHdown]. unfold lot_percent. split; intros Hall;
      inversion Hall as [|? ? Hcmp Hrest]; subst.
    + specialize (IHup Hrest).
      assert (0 <= (current_price - e) / e) by (apply Qle_shift_div_l; [exact He | lra]).
      lra.
    + specialize (IHdown Hrest).
      assert ((current_price - e) / e <= 0) by (apply Qle_shift_div_r; [exact He | lra]).
      lra.
Qed.

Lemma unrealized_profit_sign_witness :
  (Forall (fun entry_price => entry_price <= 15) [10; 14] ->
   0 <= unrealized_profit 15 [10; 14]) /\
  (Forall (fun entry_price => 15 <= entry_price) [10; 14] ->
   unrealized_profit 15 [10; 14] <= 0).
Proof.
  apply (unrealized_profit_sign 15 [10; 14]).
  repeat constructor.
Defined.

(** ** [resample_data] *)
Module ResampleFacts.

Import Resample.

Lemma fold_left_Qmax_above (s : list Q) :
  forall a : Q, a <= fold_left Qmax s a /\ forall x, In x s -> x <= fold_left Qmax s a.
Proof.
  induction s as [|y s IH]; intros a; simpl.
  - split; [apply Qle_refl | intros x []].
  - destruct (IH (Qmax a y)) as [Hacc Hin]. split.
    + apply Qle_trans with (Qmax a y); [apply Q.le_max_l | exact Hacc].
    + intros x [<- | Hx].
      * apply Qle_trans with (Qmax a y); [apply Q.le_max_r | exact Hacc].
      * apply Hin, Hx.
Qed.

(** The bins hold the rows of the frame, each once and in order. *)
Lemma bins_partition (bin : Z -> Z) (rows : list Row) :
  concat (map (fun b => fst (snd b) :: snd (snd b)) (bins bin rows)) = rows.
Proof.
  induction rows as [|r rows IH]; [reflexivity|].
  cbn [bins]. destruct (bins bin rows) as [|[label [r' others]] rest].
  - simpl in IH. subst rows. reflexivity.
  - destruct (bin (index r) =? label)%Z; simpl in *; rewrite IH; reflexivity.
Qed.

Lemma ohlc_well_formed (label : Z) (r : Row) (others : list Row) :
  Forall well_formed (r :: others) -> well_formed (ohlc label r others).
Proof.
  intros Hall. rewrite Forall_forall in Hall.
  assert (Hlast : In (last others r) (r :: others)).
  { destruct others as [|x others]; [left; reflexivity|].
    right. assert (Hne : x :: others <> []) by discriminate.
    destruct (exists_last Hne) as (l & y & ->). rewrite last_last.
    apply in_or_app. right. left. reflexivity. }
  destruct (fold_left_Qmin_le (map low others) (low r)) as [Hlo_r Hlo_in].
  destruct (fold_left_Qmax_above (map high others) (high r)) as [Hhi_r Hhi_in].
  assert (Hlo : forall x, In x (r :: others) ->
                  fold_left Qmin (map low others) (low r) <= low x).
  { intros x [<- | Hx]; [exact Hlo_r | apply Hlo_in, in_map, Hx]. }
  assert (Hhi : forall x, In x (r :: others) ->
                  high x <= fold_left Qmax (map high others) (high r)).
  { intros x [<- | Hx]; [exact Hhi_r | apply Hhi_in, in_map, Hx]. }
  pose proof (Hall r (or_introl eq_refl)) as (Hr1 & Hr2 & Hr3 & Hr4).
  pose proof (Hall _ Hlast) as (Hl1 & Hl2 & Hl3 & Hl4).
  pose proof (Hlo _ Hlast). pose proof (Hhi _ Hlast).
  unfold well_formed. cbn [ohlc open high low close]. repeat split; lra.
Qed.

(** X14. Resampling keeps the rows well formed: when in every row of the
    frame the low and the high bracket the open and the close, the same
    holds in every row of the resampled frame, whatever the bins. *)
Theorem resample_keeps_rows_well_formed (bin : Z -> Z) (rows : list Row) :
  Forall well_formed rows -> Forall well_formed (resample_with bin rows).
Proof.
  intros Hall. rewrite <- (bins_partition bin rows) in Hall.
  unfold resample_with. induction (bins bin rows) as [|[label [r others]] rest IH];
    [constructor|].
  cbn [map concat fst snd] in *. apply Forall_app in Hall as [Hgroup Hrest].
  constructor; [apply ohlc_well_formed, Hgroup | apply IH, Hrest].
Qed.

Lemma resample_keeps_rows_well_formed_witness :
  Forall well_formed
    (resample_data [mkRow 0 10 12 9 11 5; mkRow 1 11 15 10 14 7; mkRow 4 14 14 8 9 2] 4).
Proof.
  apply (resample_keeps_rows_well_formed (floor_to 4)
           [mkRow 0 10 12 9 11 5; mkRow 1 11 15 10 14 7; mkRow 4 14 14 8 9 2]).
  repeat constructor; simpl; discriminate.
Defined.

Lemma total_volume_app (a b : list Row) :
  total_volume (a ++ b) == total_volume a + total_volume b.
Proof.
  induction a as [|r a IH]; simpl; [ring | rewrite IH; ring].
Qed.

Lemma fold_left_Qplus_volume (others : list Row) :
  forall a : Q, fold_left Qplus (map volume others) a == a + total_volume others.
Proof.
  induction others as [|r others IH]; intros a; simpl; [ring | rewrite IH; ring].
Qed.

(** X15. Resampling conserves the volume: the volumes of the resampled rows
    add up to the volumes of the rows of the frame. *)
Theorem resample_conserves_volume (bin : Z -> Z) (rows : list Row) :
  total_volume (resample_with bin rows) == total_volume rows.
Proof.
  rewrite <- (bins_partition bin rows) at 2.
  unfold resample_with. induction (bins bin rows) as [|[label [r others]] rest IH];
    [reflexivity|].
  cbn [map concat fst snd]. rewrite total_volume_app. cbn [total_volume fold_right].
  fold (total_volume (map (fun b => ohlc (fst b) (fst (snd b)) (snd (snd b))) rest)).
  fold (total_volume others).
  rewrite IH. cbn [ohlc volume]. rewrite fold_left_Qplus_volume. ring.
Qed.

Lemma last_cons_default (r d : Row) (others : list Row) :
  last (r :: others) d = last others r.
Proof.
  revert r d. induction others as [|x others IH]; intros r d; [reflexivity|].
  change (last (r :: x :: others) d) with (last (x :: others) d).
  rewrite (IH x d), (IH x r). reflexivity.
Qed.

Lemma last_app_nonempty (a c : list Row) (d : Row) :
  c <> [] -> last (a ++ c) d = last c d.
Proof.
  intros Hc. induction a as [|x a IH]; [reflexivity|].
  cbn [app last]. destruct (a ++ c) eqn:E; [|exact IH].
  apply app_eq_nil in E as [_ E]. contradiction.
Qed.

Lemma resample_with_ends (bin : Z -> Z) (rows : list Row) (d : Row) :
  open (hd d (resample_with bin rows)) = open (hd d rows) /\
  close (last (resample_with bin rows) d) = close (last rows d).
Proof.
  rewrite <- (bins_partition bin rows) at 2 4.
  unfold resample_with.
  induction (bins bin rows) as [|[label [r others]] rest [_ IH]]; [split; reflexivity|].
  split; [reflexivity|].
  cbn [map concat fst snd]. destruct rest as [|b rest].
  - cbn [map concat last]. rewrite app_nil_r, last_cons_default. reflexivity.
  - rewrite last_app_nonempty by (destruct b as [? [? ?]]; discriminate).
    cbn [map last] in *. exact IH.
Qed.

(** X16. Resampling keeps the ends of the frame: the first open and the last
    close of the resampled frame are those of the frame, whatever the
    timeframe. *)
Theorem resample_keeps_first_open_and_last_close
    (data_df : list Row) (timeframe : Z) (d : Row) :
  open (hd d (resample_data data_df timeframe)) = open (hd d data_df) /\
  close (last (resample_data data_df timeframe) d) = close (last data_df d).
Proof.
  apply resample_with_ends.
Qed.

(** X17. For every timeframe of the driver the last close of the frame the
    strategy runs on, the [current_price] of the unrealised profit, is the
    last close of the hourly frame. *)
Theorem every_timeframe_has_the_hourly_last_close
    (tf_interval : String.string) (data_df : list Row) (d : Row) :
  close (last (Timeframes.timeframe_frame tf_interval data_df) d) = close (last data_df d).
Proof.
  unfold Timeframes.timeframe_frame.
  match goal with
  | |- context [if ?resampled then _ else data_df] => destruct resampled
  end; [apply resample_with_ends | reflexivity].
Qed.

Lemma ohlc_of_one_row (r : Row) : ohlc (index r) r [] = r.
Proof. destruct r. reflexivity. Qed.

(** The labels of the bins are labels that [bin] gives, and two bins in a
    row never have the same label. *)
Lemma bins_labels (bin : Z -> Z) (rows : list Row) :
  (forall t, bin (bin t) = bin t) ->
  Forall (fun b => bin (fst b) = fst b) (bins bin rows) /\
  Sorted (fun a b => fst a <> fst b) (bins bin rows).
Proof.
  intros Hidem. induction rows as [|r rows [IHl IHs]]; [split; constructor|].
  cbn [bins]. destruct (bins bin rows) as [|[label [r' others]] rest].
  - split; repeat constructor. apply Hidem.
  - destruct (bin (index r) =? label)%Z eqn:E.
    + inversion IHl; subst. inversion IHs as [|? ? Hs Hh]; subst. split.
      * constructor; assumption.
      * constructor; [exact Hs|]. destruct Hh; constructor. assumption.
    + apply Z.eqb_neq in E. split.
      * constructor; [apply Hidem | exact IHl].
      * constructor; [exact IHs|]. constructor. exact E.
Qed.

Lemma bins_of_binned (bin : Z -> Z) (rows : list Row) :
  Forall (fun r => bin (index r) = index r) rows ->
  Sorted (fun a b => index a <> index b) rows ->
  bins bin rows = map (fun r => (index r, (r, []))) rows.
Proof.
  intros Hl Hs. induction rows as [|r rows IH]; [reflexivity|].
  inversion Hl as [|? ? Hr Hl']; subst. inversion Hs as [|? ? Hs' Hh]; subst.
  cbn [bins]. rewrite (IH Hl' Hs'). rewrite Hr.
  destruct rows as [|r2 rows]; [reflexivity|].
  cbn [map]. inversion Hh as [|? ? Hne]; subst.
  apply Z.eqb_neq in Hne. rewrite Hne. reflexivity.
Qed.

(** X18. Resampling a frame that was resampled with the same bins changes
    nothing, for bins whose label is a time of the bin itself (the left edge
    that [floor_to] gives is one). *)
Theorem resample_twice_is_resample_once (bin : Z -> Z) (rows : list Row) :
  (forall t, bin (bin t) = bin t) ->
  resample_with bin (resample_with bin rows) = resample_with bin rows.
Proof.
  intros Hidem. destruct (bins_labels bin rows Hidem) as [Hl Hs].
  unfold resample_with at 1. rewrite bins_of_binned.
  - rewrite map_map. cbn [fst snd]. rewrite <- (map_id (resample_with bin rows)) at 2.
    apply map_ext. intros r. apply ohlc_of_one_row.
  - unfold resample_with. apply Forall_map. eapply Forall_impl; [|exact Hl].
    intros [label [r others]] H. exact H.
  - unfold resample_with. clear Hl.
    induction Hs as [|[label [r others]] bs Hs IH Hh]; cbn [map]; constructor.
    + exact IH.
    + destruct Hh as [|[label2 [r2 others2]] bs Hne]; cbn [map]; constructor. exact Hne.
Qed.

Lemma floor_to_idempotent (timeframe t : Z) :
  timeframe <> 0%Z -> floor_to timeframe (floor_to timeframe t) = floor_to timeframe t.
Proof.
  intros Hw. unfold floor_to. rewrite Z.div_mul by exact Hw. reflexivity.
Qed.

Lemma resample_twice_is_resample_once_witness :
  resample_data
    (resample_data [mkRow 0 10 12 9 11 5; mkRow 1 11 15 10 14 7; mkRow 4 14 14 8 9 2] 4) 4
  = resample_data [mkRow 0 10 12 9 11 5; mkRow 1 11 15 10 14 7; mkRow 4 14 14 8 9 2] 4.
Proof.
  apply (resample_twice_is_resample_once (floor_to 4)
           [mkRow 0 10 12 9 11 5; mkRow 1 11 15 10 14 7; mkRow 4 14 14 8 9 2]).
  intros t. apply floor_to_idempotent. discriminate.
Defined.

End ResampleFacts.

(** ** [get_color] *)
Module ColourFacts.

Import Colour.

Lemma py_int_floor (x : Q) : 0 <= x -> py_int x = Qfloor x.
Proof.
  destruct x as [n d]. unfold Qle, py_int, Qfloor. simpl. intros Hn.
  apply Z.quot_div_nonneg; lia.
Qed.

Lemma py_int_nonneg (x : Q) : 0 <= x -> (0 <= py_int x)%Z.
Proof.
  intros Hx. rewrite py_int_floor by exact Hx.
  rewrite <- (Qfloor_Z 0). apply Qfloor_resp_le. exact Hx.
Qed.

Lemma py_int_monotone (x y : Q) : 0 <= x -> x <= y -> (py_int x <= py_int y)%Z.
Proof.
  intros Hx Hxy. rewrite !py_int_floor by lra. apply Qfloor_resp_le, Hxy.
Qed.

Lemma Qopp_opp_eq (x : Q) : - - x = x.
Proof.
  destruct x as [n d]. unfold Qopp. cbn [Qnum Qden]. rewrite Z.opp_involutive. reflexivity.
Qed.

Lemma unrounded_rounds : round_to_nearest unrounded.
Proof.
  split.
  - intros x y Hxy. exact Hxy.
  - intros m k _ _. eexists. split; reflexivity.
Qed.

Section Rounding.

Variable rnd : Q -> double.
Hypothesis rounds : round_to_nearest rnd.

(** Rounding keeps a value on its side of a double. *)
Lemma rnd_below (x M : Q) (m : Z) (k : nat) :
  M == dyadic m k -> (Z.abs m <= 2 ^ 53)%Z -> (k <= 53)%nat ->
  x <= M ->
  rnd x = Infinite true \/ exists y, rnd x = Finite y /\ y <= M.
Proof.
  intros HM Hm Hk Hx.
  destruct (rnd_exact rnd rounds m k Hm Hk) as (z & Hz & Hzm).
  assert (Hle : x <= dyadic m k) by (rewrite <- HM; exact Hx).
  pose proof (rnd_monotone rnd rounds x (dyadic m k) Hle) as Hmono.
  rewrite Hz in Hmono. destruct (rnd x) as [y|[|]]; simpl in Hmono.
  - right. exists y. split; [reflexivity|]. rewrite HM, <- Hzm. exact Hmono.
  - left. reflexivity.
  - contradiction.
Qed.

Lemma rnd_above (x M : Q) (m : Z) (k : nat) :
  M == dyadic m k -> (Z.abs m <= 2 ^ 53)%Z -> (k <= 53)%nat ->
  M <= x ->
  rnd x = Infinite false \/ exists y, rnd x = Finite y /\ M <= y.
Proof.
  intros HM Hm Hk Hx.
  destruct (rnd_exact rnd rounds m k Hm Hk) as (z & Hz & Hzm).
  assert (Hle : dyadic m k <= x) by (rewrite <- HM; exact Hx).
  pose proof (rnd_monotone rnd rounds (dyadic m k) x Hle) as Hmono.
  rewrite Hz in Hmono. destruct (rnd x) as [y|[|]]; simpl in Hmono.
  - right. exists y. split; [reflexivity|]. rewrite HM, <- Hzm. exact Hmono.
  - contradiction.
  - left. reflexivity.
Qed.

Lemma rnd_nonneg (x : Q) :
  0 <= x -> rnd x = Infinite false \/ exists y, rnd x = Finite y /\ 0 <= y.
Proof.
  apply (rnd_above x 0 0 0); [reflexivity | apply Z.leb_le; reflexivity | lia].
Qed.

Lemma rnd_between (x M : Q) (m : Z) (k : nat) :
  M == dyadic m k -> (Z.abs m <= 2 ^ 53)%Z -> (k <= 53)%nat ->
  0 <= x -> x <= M ->
  exists y, rnd x = Finite y /\ 0 <= y /\ y <= M.
Proof.
  intros HM Hm Hk H0 Hx.
  destruct (rnd_nonneg x H0) as [Hinf | (y & Hy & Hy0)];
    destruct (rnd_below x M m k HM Hm Hk Hx) as [Hinf' | (y' & Hy' & HyM)]; try congruence.
  exists y. split; [exact Hy|]. split; [exact Hy0|].
  rewrite Hy in Hy'. injection Hy' as <-. exact HyM.
Qed.

(** The float handed to [int], for a finite value. *)
Lemma scaled_mono (v w : Q) :
  v <= w -> double_le (scaled rnd (Finite v)) (scaled rnd (Finite w)).
Proof.
  intros Hvw. unfold scaled, fdiv.
  assert (Hdiv : v / 100 <= w / 100) by (apply Qdiv_le_mono; [reflexivity | exact Hvw]).
  pose proof (rnd_monotone rnd rounds _ _ Hdiv) as H1.
  destruct (rnd (v / 100)) as [x|[|]], (rnd (w / 100)) as [x'|[|]];
    simpl in H1; try contradiction; cbn [fmul double_le]; try exact I.
  - apply (rnd_monotone rnd rounds). lra.
  - destruct (rnd (255 * x)) as [?|[|]]; exact I.
Qed.

Lemma scaled_nonneg (v : Q) :
  0 <= v ->
  scaled rnd (Finite v) = Infinite false \/
  exists y, scaled rnd (Finite v) = Finite y /\ 0 <= y.
Proof.
  intros Hv. unfold scaled, fdiv.
  assert (H0 : 0 <= v / 100) by (apply Qle_shift_div_l; [reflexivity | lra]).
  destruct (rnd_nonneg _ H0) as [-> | (x & -> & Hx)]; [left; reflexivity|].
  cbn [fmul]. apply rnd_nonneg. lra.
Qed.

Lemma scaled_bounded (v : Q) :
  0 <= v -> v <= 1000000000000 ->
  exists y, scaled rnd (Finite v) = Finite y /\ 0 <= y.
Proof.
  intros Hv Hbig. unfold scaled, fdiv.
  assert (H0 : 0 <= v / 100) by (apply Qle_shift_div_l; [reflexivity | lra]).
  assert (H1 : v / 100 <= 10000000000) by (apply Qle_shift_div_r; [reflexivity | lra]).
  destruct (rnd_between (v / 100) 10000000000 10000000000 0)
    as (x & -> & Hx0 & Hx1);
    [reflexivity | apply Z.leb_le; reflexivity | lia | exact H0 | exact H1 |].
  cbn [fmul].
  destruct (rnd_between (255 * x) 2550000000000 2550000000000 0)
    as (y & -> & Hy0 & _);
    [reflexivity | apply Z.leb_le; reflexivity | lia | lra | lra |].
  exists y. split; [reflexivity | exact Hy0].
Qed.

Lemma scaled_saturated (v : Q) :
  100 <= v ->
  scaled rnd (Finite v) = Infinite false \/
  exists y, scaled rnd (Finite v) = Finite y /\ 255 <= y.
Proof.
  intros Hv. unfold scaled, fdiv.
  assert (H1 : 1 <= v / 100) by (apply Qle_shift_div_l; [reflexivity | lra]).
  destruct (rnd_above (v / 100) 1 1 0) as [-> | (x & -> & Hx)];
    [reflexivity | apply Z.leb_le; reflexivity | lia | exact H1 | left; reflexivity |].
  cbn [fmul].
  apply (rnd_above (255 * x) 255 255 0);
    [reflexivity | apply Z.leb_le; reflexivity | lia | lra].
Qed.

Lemma scaled_in_band (v : Q) :
  0 <= v -> v <= 100 # 256 ->
  exists y, scaled rnd (Finite v) = Finite y /\ 0 <= y /\ y < 1.
Proof.
  intros Hv Hband. unfold scaled, fdiv.
  assert (H0 : 0 <= v / 100) by (apply Qle_shift_div_l; [reflexivity | lra]).
  assert (H1 : v / 100 <= 1 # 256) by (apply Qle_shift_div_r; [reflexivity | lra]).
  destruct (rnd_between (v / 100) (1 # 256) 1 8) as (x & -> & Hx0 & Hx1);
    [reflexivity | apply Z.leb_le; reflexivity | lia | exact H0 | exact H1 |].
  cbn [fmul].
  destruct (rnd_between (255 * x) (255 # 256) 255 8) as (y & -> & Hy0 & Hy1);
    [reflexivity | apply Z.leb_le; reflexivity | lia | lra | lra |].
  exists y. split; [reflexivity|]. split; lra.
Qed.

Lemma gain_color (v : Q) :
  0 < v ->
  get_color rnd (Some (Finite v))
  = match scaled rnd (Finite v) with
    | Finite y =>
        Returns (foreground (255 - Z.min 255 (py_int y)) 255 (255 - Z.min 255 (py_int y)))
    | Infinite _ => OverflowError
    end.
Proof.
  intros Hv. apply Qlt_bool_iff in Hv. unfold get_color. cbn [positive]. rewrite Hv.
  destruct (scaled rnd (Finite v)); reflexivity.
Qed.

Lemma loss_color (v : Q) :
  v < 0 ->
  get_color rnd (Some (Finite v))
  = match scaled rnd (Finite (- v)) with
    | Finite y =>
        Returns (foreground 255 (255 - Z.min 255 (py_int y)) (255 - Z.min 255 (py_int y)))
    | Infinite _ => OverflowError
    end.
Proof.
  intros Hv. unfold get_color. cbn [positive negative fneg].
  replace (Qlt_bool 0 v) with false.
  - apply Qlt_bool_iff in Hv. rewrite Hv.
    destruct (scaled rnd (Finite (- v))); reflexivity.
  - symmetry. destruct (Qlt_bool 0 v) eqn:E; [|reflexivity].
    apply Qlt_bool_iff in E. lra.
Qed.

Lemma neutral_color (v : Q) : v == 0 -> get_color rnd (Some (Finite v)) = Returns white.
Proof.
  intros Hv. unfold get_color. cbn [positive negative].
  replace (Qlt_bool 0 v) with false; [replace (Qlt_bool v 0) with false; [reflexivity|]|];
    symmetry; match goal with |- ?b = false => destruct b eqn:E end; try reflexivity;
    apply Qlt_bool_iff in E; lra.
Qed.

Lemma shade_range (y : Q) : 0 <= y -> (0 <= 255 - Z.min 255 (py_int y) <= 255)%Z.
Proof.
  intros Hy. pose proof (py_int_nonneg y Hy). lia.
Qed.

(** A gain and the loss of the same size: both calls raise, or both return,
    with the same shade. *)
Lemma gain_and_loss (v : Q) :
  0 < v ->
  (scaled rnd (Finite v) = Infinite false /\
   get_color rnd (Some (Finite v)) = OverflowError /\
   get_color rnd (Some (Finite (- v))) = OverflowError) \/
  (exists y,
     scaled rnd (Finite v) = Finite y /\ 0 <= y /\
     get_color rnd (Some (Finite v))
     = Returns (foreground (255 - Z.min 255 (py_int y)) 255 (255 - Z.min 255 (py_int y))) /\
     get_color rnd (Some (Finite (- v)))
     = Returns (foreground 255 (255 - Z.min 255 (py_int y)) (255 - Z.min 255 (py_int y)))).
Proof.
  intros Hv.
  assert (Hloss : - v < 0) by lra.
  pose proof (gain_color v Hv) as Hg. pose proof (loss_color (- v) Hloss) as Hl.
  rewrite Qopp_opp_eq in Hl.
  destruct (scaled_nonneg v (Qlt_le_weak _ _ Hv)) as [Hinf | (y & Hy & Hy0)].
  - left. rewrite Hinf in Hg, Hl. auto.
  - right. exists y. rewrite Hy in Hg, Hl. auto.
Qed.

(** A change of 100 percent or more: the pure colour, or, past 10^12
    percent, possibly [OverflowError]. *)
Lemma saturated (v : Q) :
  100 <= v ->
  (get_color rnd (Some (Finite v)) = Returns (foreground 0 255 0) /\
   get_color rnd (Some (Finite (- v))) = Returns (foreground 255 0 0)) \/
  (1000000000000 < v /\
   get_color rnd (Some (Finite v)) = OverflowError /\
   get_color rnd (Some (Finite (- v))) = OverflowError).
Proof.
  intros Hv. assert (Hpos : 0 < v) by lra.
  destruct (gain_and_loss v Hpos) as [(Hinf & Hg & Hl) | (y & Hy & _ & Hg & Hl)].
  - right. split; [|split; assumption].
    destruct (Qlt_le_dec 1000000000000 v) as [Hbig | Hbounded]; [exact Hbig|].
    destruct (scaled_bounded v (Qlt_le_weak _ _ Hpos) Hbounded) as (y & Hy & _).
    congruence.
  - left. destruct (scaled_saturated v Hv) as [Hinf | (y' & Hy' & H255)]; [congruence|].
    assert (y' = y) as -> by congruence.
    assert (Hshade : (255 - Z.min 255 (py_int y) = 0)%Z).
    { assert (255 <= py_int y)%Z; [|lia].
      change 255%Z with (py_int 255). apply py_int_monotone; [discriminate | exact H255]. }
    rewrite Hg, Hl, Hshade. split; reflexivity.
Qed.

End Rounding.

(** X19. [get_color] raises [OverflowError] on an infinity, and returns on a
    missing value and on every change of at most 10^12 percent either way.
    Whatever it returns is the escape sequence of a 24-bit colour whose
    three components are between 0 and 255; a gain has full green and equal
    red and blue, a loss has full red and equal green and blue. *)
Theorem get_color_is_a_valid_colour (rnd : Q -> double) :
  round_to_nearest rnd ->
  (forall negative, get_color rnd (Some (Infinite negative)) = OverflowError) /\
  get_color rnd None = Returns white /\
  (forall v, - (1000000000000) <= v <= 1000000000000 ->
     exists colour, get_color rnd (Some (Finite v)) = Returns colour) /\
  (forall value colour,
     get_color rnd value = Returns colour ->
     exists r g b : Z,
       colour = foreground r g b /\
       (0 <= r <= 255)%Z /\ (0 <= g <= 255)%Z /\ (0 <= b <= 255)%Z /\
       (forall v, value = Some (Finite v) -> 0 < v -> g = 255%Z /\ r = b) /\
       (forall v, value = Some (Finite v) -> v < 0 -> r = 255%Z /\ g = b)).
Proof.
  intros rounds. split; [|split; [|split]].
  - intros [|]; reflexivity.
  - reflexivity.
  - intros v [Hlo Hhi]. destruct (Q_dec v 0) as [[Hneg | Hpos] | Hzero].
    + assert (H0 : 0 <= - v) by lra. assert (H1 : - v <= 1000000000000) by lra.
      destruct (scaled_bounded rnd rounds (- v) H0 H1) as (y & Hy & _).
      rewrite (loss_color rnd v Hneg), Hy. eexists. reflexivity.
    + destruct (scaled_bounded rnd rounds v (Qlt_le_weak _ _ Hpos) Hhi) as (y & Hy & _).
      rewrite (gain_color rnd v Hpos), Hy. eexists. reflexivity.
    + rewrite (neutral_color rnd v Hzero). eexists. reflexivity.
  - intros [[v | negative] |] colour Hcolour.
    + destruct (Q_dec v 0) as [[Hneg | Hpos] | Hzero].
      * assert (Hopp : 0 < - v) by lra.
        destruct (gain_and_loss rnd rounds (- v) Hopp)
          as [(_ & _ & Hl) | (y & _ & Hy0 & _ & Hl)];
          rewrite Qopp_opp_eq in Hl; rewrite Hl in Hcolour; [discriminate|].
        injection Hcolour as <-. assert (Hrange := shade_range y Hy0).
        do 3 eexists. split; [reflexivity|].
        split; [lia|]. split; [exact Hrange|]. split; [exact Hrange|]. split.
        -- intros v' [= <-] Hv'. lra.
        -- intros v' _ _. split; reflexivity.
      * destruct (gain_and_loss rnd rounds v Hpos)
          as [(_ & Hg & _) | (y & _ & Hy0 & Hg & _)];
          rewrite Hg in Hcolour; [discriminate|].
        injection Hcolour as <-. assert (Hrange := shade_range y Hy0).
        do 3 eexists. split; [reflexivity|].
        split; [exact Hrange|]. split; [lia|]. split; [exact Hrange|]. split.
        -- intros v' _ _. split; reflexivity.
        -- intros v' [= <-] Hv'. lra.
      * rewrite (neutral_color rnd v Hzero) in Hcolour. injection Hcolour as <-.
        exists 255%Z, 255%Z, 255%Z. split; [reflexivity|].
        split; [lia|]. split; [lia|]. split; [lia|].
        split; intros v' [= <-] Hv'; lra.
    + destruct negative; discriminate Hcolour.
    + injection Hcolour as <-.
      exists 255%Z, 255%Z, 255%Z. split; [reflexivity|].
      split; [lia|]. split; [lia|]. split; [lia|].
      split; intros v' [=].
Qed.

Lemma get_color_is_a_valid_colour_witness :
  get_color unrounded (Some (Finite 25)) = Returns (foreground 192 255 192) /\
  exists r g b : Z,
    foreground 192 255 192 = foreground r g b /\
    (0 <= r <= 255)%Z /\ (0 <= g <= 255)%Z /\ (0 <= b <= 255)%Z /\
    (forall v, Some (Finite 25) = Some (Finite v) -> 0 < v -> g = 255%Z /\ r = b) /\
    (forall v, Some (Finite 25) = Some (Finite v) -> v < 0 -> r = 255%Z /\ g = b).
Proof.
  split; [vm_compute; reflexivity|].
  apply (proj2 (proj2 (proj2 (get_color_is_a_valid_colour unrounded unrounded_rounds)))
           (Some (Finite 25))).
  vm_compute. reflexivity.
Defined.

(** X20. A gain of 100 percent or more is pure green and a loss of 100
    percent or more is pure red, unless the change is past 10^12 percent
    and the call raises [OverflowError]; a gain or a loss of at most 100/256
    percent is rendered in the white of an unchanged value. *)
Theorem get_color_saturates_and_has_a_white_band (rnd : Q -> double) (value : Q) :
  round_to_nearest rnd ->
  (100 <= value ->
     get_color rnd (Some (Finite value)) = Returns (foreground 0 255 0) \/
     (1000000000000 < value /\ get_color rnd (Some (Finite value)) = OverflowError)) /\
  (value <= - (100) ->
     get_color rnd (Some (Finite value)) = Returns (foreground 255 0 0) \/
     (value < - (1000000000000) /\ get_color rnd (Some (Finite value)) = OverflowError)) /\
  (- (100 # 256) <= value <= 100 # 256 ->
     get_color rnd (Some (Finite value)) = Returns white).
Proof.
  intros rounds.
  assert (Hband : forall y, 0 <= y -> y < 1 -> (255 - Z.min 255 (py_int y) = 255)%Z).
  { intros y Hy0 Hy1. pose proof (py_int_nonneg y Hy0) as Hge.
    assert (py_int y < 1)%Z; [|lia].
    rewrite py_int_floor by exact Hy0. rewrite Zlt_Qlt.
    apply Qle_lt_trans with y; [apply Qfloor_le | exact Hy1]. }
  split; [|split].
  - intros Hv.
    destruct (saturated rnd rounds value Hv) as [(Hg & _) | (Hbig & Hg & _)];
      [left; exact Hg | right; split; assumption].
  - intros Hv. assert (Hopp : 100 <= - value) by lra.
    destruct (saturated rnd rounds (- value) Hopp) as [(_ & Hl) | (Hbig & _ & Hl)];
      rewrite Qopp_opp_eq in Hl; [left; exact Hl | right; split; [lra | exact Hl]].
  - intros [Hlo Hhi]. destruct (Q_dec value 0) as [[Hneg | Hpos] | Hzero].
    + assert (H0 : 0 <= - value) by lra. assert (H1 : - value <= 100 # 256) by lra.
      destruct (scaled_in_band rnd rounds (- value) H0 H1) as (y & Hy & Hy0 & Hy1).
      rewrite (loss_color rnd value Hneg), Hy, (Hband y Hy0 Hy1). reflexivity.
    + destruct (scaled_in_band rnd rounds value (Qlt_le_weak _ _ Hpos) Hhi)
        as (y & Hy & Hy0 & Hy1).
      rewrite (gain_color rnd value Hpos), Hy, (Hband y Hy0 Hy1). reflexivity.
    + apply neutral_color, Hzero.
Qed.

Lemma get_color_saturates_and_has_a_white_band_witness :
  get_color unrounded (Some (Finite (1 # 4))) = Returns white.
Proof.
  apply (proj2 (proj2 (get_color_saturates_and_has_a_white_band
                         unrounded (1 # 4) unrounded_rounds))).
  split; discriminate.
Defined.

(** X21. The larger the gain the darker the green, and a loss gets the same
    shade as the gain of the same size; past 10^12 percent the call for the
    larger change may instead raise [OverflowError], for the gain and for
    the loss alike. *)
Theorem get_color_darkens_with_the_size_of_the_change
    (rnd : Q -> double) (small large : Q) :
  round_to_nearest rnd ->
  0 < small ->
  small <= large ->
  (1000000000000 < large /\
   get_color rnd (Some (Finite large)) = OverflowError /\
   get_color rnd (Some (Finite (- large))) = OverflowError) \/
  (exists shade_small shade_large : Z,
     (shade_large <= shade_small)%Z /\
     get_color rnd (Some (Finite small)) = Returns (foreground shade_small 255 shade_small) /\
     get_color rnd (Some (Finite large)) = Returns (foreground shade_large 255 shade_large) /\
     get_color rnd (Some (Finite (- small))) = Returns (foreground 255 shade_small shade_small) /\
     get_color rnd (Some (Finite (- large))) = Returns (foreground 255 shade_large shade_large)).
Proof.
  intros rounds Hsmall Hle. assert (Hlarge : 0 < large) by lra.
  destruct (gain_and_loss rnd rounds large Hlarge)
    as [(Hinf & Hg & Hl) | (yl & Hyl & Hyl0 & Hg & Hl)].
  - left. split; [|split; assumption].
    destruct (Qlt_le_dec 1000000000000 large) as [Hbig | Hbounded]; [exact Hbig|].
    destruct (scaled_bounded rnd rounds large (Qlt_le_weak _ _ Hlarge) Hbounded)
      as (y & Hy & _).
    congruence.
  - right. pose proof (scaled_mono rnd rounds small large Hle) as Hmono.
    rewrite Hyl in Hmono.
    destruct (gain_and_loss rnd rounds small Hsmall)
      as [(Hinf & _ & _) | (ys & Hys & Hys0 & Hgs & Hls)].
    + rewrite Hinf in Hmono. contradiction.
    + rewrite Hys in Hmono. cbn [double_le] in Hmono.
      pose proof (py_int_monotone ys yl Hys0 Hmono) as Hint.
      do 2 eexists.
      split; [|split; [exact Hgs | split; [exact Hg | split; [exact Hls | exact Hl]]]].
      lia.
Qed.

Lemma get_color_darkens_with_the_size_of_the_change_witness :
  exists shade_small shade_large : Z,
    (shade_large <= shade_small)%Z /\
    get_color unrounded (Some (Finite 10)) = Returns (foreground shade_small 255 shade_small) /\
    get_color unrounded (Some (Finite 40)) = Returns (foreground shade_large 255 shade_large) /\
    get_color unrounded (Some (Finite (- (10)))) = Returns (foreground 255 shade_small shade_small) /\
    get_color unrounded (Some (Finite (- (40)))) = Returns (foreground 255 shade_large shade_large).
Proof.
  destruct (get_color_darkens_with_the_size_of_the_change unrounded 10 40 unrounded_rounds)
    as [(Hbig & _) | Hshades].
  - reflexivity.
  - discriminate.
  - discriminate Hbig.
  - exact Hshades.
Defined.

End ColourFacts.

(** ** Weekly performance *)

Lemma weekly_performance_cons (first next : Q) (rest : list Q) :
  weekly_performance (first :: next :: rest)
  = (next / first - 1) * 100 :: weekly_performance (next :: rest).
Proof. reflexivity. Qed.

Lemma compound_compat (performance : list Q) :
  forall a b : Q, a == b -> compound a performance == compound b performance.
Proof.
  unfold compound. induction performance as [|p performance IH]; intros a b Hab; simpl.
  - exact Hab.
  - apply IH. rewrite Hab. reflexivity.
Qed.

(** X22. A series of closes without a zero has one weekly performance per
    week after the first (none for a single week), and carrying the first
    close forward over the weekly performances gives back the last close. *)
Theorem weekly_performance_compounds_to_the_last_close (first : Q) (rest : list Q) :
  Forall (fun close => ~ close == 0) (first :: rest) ->
  length (weekly_performance (first :: rest)) = length rest /\
  compound first (weekly_performance (first :: rest)) == last rest first.
Proof.
  revert first. induction rest as [|next rest IH]; intros first Hclose.
  - split; reflexivity.
  - inversion Hclose as [|? ? Hfirst Hrest]; subst.
    destruct (IH next Hrest) as [Hlen Hlast].
    rewrite weekly_performance_cons. split.
    + cbn [length]. rewrite Hlen. reflexivity.
    + assert (Hl : last (next :: rest) first = last rest next).
      { clear. revert next first. induction rest as [|x rest IHr]; intros next first;
          [reflexivity|].
        change (last (next :: x :: rest) first) with (last (x :: rest) first).
        rewrite (IHr x first), (IHr x next). reflexivity. }
      rewrite Hl, <- Hlast.
      change (compound first ((next / first - 1) * 100 :: weekly_performance (next :: rest)))
        with (compound (first * (1 + (next / first - 1) * 100 / 100))
                       (weekly_performance (next :: rest))).
      apply compound_compat. field. exact Hfirst.
Qed.

Lemma weekly_performance_compounds_to_the_last_close_witness :
  length (weekly_performance [100; 110; 99]) = length [110; 99] /\
  compound 100 (weekly_performance [100; 110; 99]) == last [110; 99] 100.
Proof.
  apply (weekly_performance_compounds_to_the_last_close 100 [110; 99]).
  repeat constructor; discriminate.
Defined.

(** ** [get_top_crypto_assets] *)
Module AssetsFacts.

Import Assets.

Section Frames.

Variable Frame : Type.
Variable rows : Frame -> nat.
Variable download : String.string -> Frame.

Lemma dict_set_new (ticker : String.string) (data : Frame)
    (crypto_data : list (String.string * Frame)) :
  ~ In ticker (map fst crypto_data) ->
  dict_set Frame ticker data crypto_data = crypto_data ++ [(ticker, data)].
Proof.
  induction crypto_data as [|[k v] rest IH]; intros Hnew; [reflexivity|].
  cbn [dict_set]. destruct (String.eqb ticker k) eqn:E.
  - apply String.eqb_eq in E. exfalso. apply Hnew. left. symmetry. exact E.
  - cbn [app]. f_equal. apply IH. intros H. apply Hnew. right. exact H.
Qed.

(** The loop keeps, in order, the tickers whose frame has 200 rows or more,
    and prints one line for each of the others. *)
Lemma fetch_keeps_long_frames (tickers : list String.string) :
  forall (crypto_data : list (String.string * Frame)) (printed : list String.string),
  NoDup tickers ->
  (forall t, In t tickers -> ~ In t (map fst crypto_data)) ->
  fetch Frame rows download tickers crypto_data printed
  = (crypto_data
       ++ map (fun t => (t, download t))
              (filter (fun t => (200 <=? rows (download t))%nat) tickers),
     printed ++ flat_map (report Frame rows download) tickers).
Proof.
  induction tickers as [|t tickers IH]; intros crypto_data printed Hnodup Hnew.
  - simpl. rewrite !app_nil_r. reflexivity.
  - inversion Hnodup as [|? ? Ht Hnodup']; subst.
    cbn [fetch filter flat_map].
    destruct (rows (download t) =? 0)%nat eqn:Hempty; cbn [negb].
    + assert (Hshort : (200 <=? rows (download t))%nat = false).
      { apply Nat.eqb_eq in Hempty. apply Nat.leb_gt. lia. }
      rewrite Hshort.
      rewrite IH; [|exact Hnodup' | intros t' H; apply Hnew; right; exact H].
      unfold report at 2. rewrite Hempty. rewrite <- app_assoc. reflexivity.
    + destruct (200 <=? rows (download t))%nat eqn:Hlong.
      * rewrite dict_set_new by (apply Hnew; left; reflexivity).
        rewrite IH; [|exact Hnodup'|].
        -- unfold report at 2. rewrite Hempty, Hlong.
           cbn [map app]. rewrite <- app_assoc. reflexivity.
        -- intros t' Hin. rewrite map_app, in_app_iff. cbn [map fst In].
           intros [H | [<- | []]]; [|contradiction].
           apply (Hnew t'); [right; exact Hin | exact H].
      * rewrite IH; [|exact Hnodup' | intros t' H; apply Hnew; right; exact H].
        unfold report at 2. rewrite Hempty, Hlong. rewrite <- app_assoc. reflexivity.
Qed.

Lemma crypto_tickers_distinct : NoDup crypto_tickers.
Proof.
  unfold crypto_tickers.
  repeat (constructor; [simpl; intuition discriminate|]). constructor.
Qed.

(** X23. Unless a cache less than a day old was read, the dictionary
    returned holds, in the order of the ticker list, exactly the tickers
    whose download has 200 rows or more, each with its download; and no
    ticker is dropped silently: a line is printed for every ticker whose
    download is empty and for every one with fewer than 200 rows. *)
Theorem fetched_assets_have_200_rows_and_the_rest_is_reported
    (cache : Cache Frame) (now : Z) (save_error : option String.string) :
  fresh Frame cache now = false ->
  fst (get_top_crypto_assets Frame rows cache now download save_error)
  = map (fun t => (t, download t))
        (filter (fun t => (200 <=? rows (download t))%nat) crypto_tickers) /\
  forall t, In t crypto_tickers ->
    (200 <= rows (download t))%nat \/
    exists line, In line (report Frame rows download t) /\
      In line (snd (get_top_crypto_assets Frame rows cache now download save_error)).
Proof.
  intros Hstale.
  assert (Hfetch : forall printed,
    fst (fetch_fresh Frame rows download save_error printed)
    = map (fun t => (t, download t))
          (filter (fun t => (200 <=? rows (download t))%nat) crypto_tickers) /\
    forall t, In t crypto_tickers ->
      (200 <= rows (download t))%nat \/
      exists line, In line (report Frame rows download t) /\
        In line (snd (fetch_fresh Frame rows download save_error printed))).
  { intros printed. unfold fetch_fresh.
    rewrite fetch_keeps_long_frames; [|apply crypto_tickers_distinct | intros t _ []].
    cbn [fst snd app]. split; [reflexivity|].
    intros t Ht. destruct (200 <=? rows (download t))%nat eqn:Hlong.
    - left. apply Nat.leb_le, Hlong.
    - right.
      assert (Hline : exists line, In line (report Frame rows download t)).
      { unfold report. rewrite Hlong.
        destruct (rows (download t) =? 0)%nat; eexists; left; reflexivity. }
      destruct Hline as [line Hline]. exists line. split; [exact Hline|].
      assert (In line (flat_map (report Frame rows download) crypto_tickers)).
      { apply in_flat_map. exists t. split; assumption. }
      destruct save_error; rewrite ?in_app_iff; auto. }
  destruct cache as [|e|timestamp data]; cbn [get_top_crypto_assets].
  - apply Hfetch.
  - apply Hfetch.
  - cbn [fresh] in Hstale. rewrite Hstale. apply Hfetch.
Qed.

End Frames.

Lemma fetched_assets_have_200_rows_and_the_rest_is_reported_witness :
  fst (get_top_crypto_assets nat (fun n => n) (Cached nat 0 []) 86400000000
         (fun _ => 250%nat) None)
  = map (fun t => (t, 250%nat))
        (filter (fun t => (200 <=? 250)%nat) crypto_tickers) /\
  forall t, In t crypto_tickers ->
    (200 <= 250)%nat \/
    exists line, In line (report nat (fun n => n) (fun _ => 250%nat) t) /\
      In line (snd (get_top_crypto_assets nat (fun n => n) (Cached nat 0 []) 86400000000
                      (fun _ => 250%nat) None)).
Proof.
  apply (fetched_assets_have_200_rows_and_the_rest_is_reported nat (fun n => n)
           (fun _ => 250%nat) (Cached nat 0 []) 86400000000 None).
  reflexivity.
Defined.

End AssetsFacts.
